(** * imapdl: certificate verifier and IMAP copy client

    A shallow embedding of [net/ssl_verification.cc] (the TLS verify
    callback with SHA-1 fingerprint pinning) and of the IMAP copy client
    (the session state machine, the tag registry and the parser
    callbacks), with the properties of the specification proved on them.

    Conventions.
    - C++ member variables keep their names, trailing underscore included.
    - Calls on external collaborators (logger, transport, timers, signal
      set, writer, maildir) are recorded, in program order, in a trace of
      events kept next to the members.
    - [THROW_MSG] and [THROW_ERROR] become the error branch of a state and
      error monad; the members keep the values they had when the exception
      left the function, as the C++ object does. *)

From Stdlib Require Import ZArith NArith List Bool Ascii String Lia.
From Stdlib Require Import Init.Byte.
From stdpp Require Import base decidable countable gmap strings list.

Local Open Scope Z_scope.

(** ** Enumerations *)

(** [IMAP::Copy::State] and the two operators on it. *)
Module State.

(** Modelled from the spec: the declaration of the enumeration (client.h)
    is outside the sources verified here.  The enumerators and their order
    are those of [state_map] and of the [switch] in [Client::command],
    and of section 3 of the specification, where [FIRST_] and [LAST_]
    mark the bounds; they are numbered from 0.  [operator++] and
    [operator+] go through [unsigned], so a value that names no
    enumerator can arise: [Unnamed]. *)
Inductive t :=
| FIRST_ | DISCONNECTED | ESTABLISHED | GOT_INITIAL_CAPABILITIES
| LOGGED_IN | GOT_CAPABILITIES | SELECTED_MAILBOX | FETCHING | FETCHED
| STORED | EXPUNGED | LOGGING_OUT | LOGGED_OUT | END | LAST_
| Unnamed (i : Z).

(** [static_cast<unsigned>(s)] *)
Definition to_unsigned (s : t) : Z :=
  match s with
  | FIRST_ => 0 | DISCONNECTED => 1 | ESTABLISHED => 2
  | GOT_INITIAL_CAPABILITIES => 3 | LOGGED_IN => 4
  | GOT_CAPABILITIES => 5 | SELECTED_MAILBOX => 6 | FETCHING => 7
  | FETCHED => 8 | STORED => 9 | EXPUNGED => 10 | LOGGING_OUT => 11
  | LOGGED_OUT => 12 | END => 13 | LAST_ => 14
  | Unnamed i => i
  end.

(** [static_cast<State>(i)] *)
Definition of_unsigned (i : Z) : t :=
  match i with
  | 0 => FIRST_ | 1 => DISCONNECTED | 2 => ESTABLISHED
  | 3 => GOT_INITIAL_CAPABILITIES | 4 => LOGGED_IN
  | 5 => GOT_CAPABILITIES | 6 => SELECTED_MAILBOX | 7 => FETCHING
  | 8 => FETCHED | 9 => STORED | 10 => EXPUNGED | 11 => LOGGING_OUT
  | 12 => LOGGED_OUT | 13 => END | 14 => LAST_
  | _ => Unnamed i
  end.

(** [State operator+(State s, int b)] *)
Definition plus (s : t) (b : Z) : t :=
  of_unsigned ((to_unsigned s + b) mod 2 ^ 32).

(** [State operator++(State &s)]: the new value, which is also what the
    reference is left with. *)
Definition incr (s : t) : t :=
  of_unsigned ((to_unsigned s + 1) mod 2 ^ 32).

#[global] Instance State_eq_dec : EqDecision t.
Proof. solve_decision. Defined.

End State.

(** [IMAP::Flag]. *)
Module Flag.

(** Modelled from the spec: the declaration of the enumeration is outside
    the sources verified here; the enumerators are the cases of the
    [switch] in [Client::imap_flag], which section 4.4 of the
    specification lists too. *)
Inductive t :=
| FIRST_ | ANSWERED | SEEN | FLAGGED | DRAFT | RECENT | DELETED | LAST_.

#[global] Instance Flag_eq_dec : EqDecision t.
Proof. solve_decision. Defined.

End Flag.

(** [IMAP::Server::Response::Capability]. *)
Module Capability.

(** Modelled from the spec: the enumeration is declared outside the
    sources verified here.  The code names [LOGINDISABLED] and [UIDPLUS]; any
    other enumerator is kept by its number. *)
Inductive t := LOGINDISABLED | UIDPLUS | Other (n : N).

#[global] Instance Capability_eq_dec : EqDecision t.
Proof. solve_decision. Defined.

Definition to_sum (c : t) : bool + N :=
  match c with
  | LOGINDISABLED => inl true
  | UIDPLUS => inl false
  | Other n => inr n
  end.

Definition of_sum (x : bool + N) : t :=
  match x with
  | inl true => LOGINDISABLED
  | inl false => UIDPLUS
  | inr n => Other n
  end.

#[global] Instance Capability_countable : Countable t.
Proof. apply (inj_countable' to_sum of_sum). by intros []. Defined.

End Capability.

(** [IMAP::Server::Response::Status]. *)
Module Status.

(** Modelled from the spec: the enumeration is declared outside the
    sources verified here.  The code names [OK]; section 7 of the
    specification names the tagged [NO] and [BAD], section 4.3 the
    [PREAUTH] greeting; [BYE] is the remaining status response of
    IMAP. *)
Inductive t := OK | NO | BAD | PREAUTH | BYE.

#[global] Instance Status_eq_dec : EqDecision t.
Proof. solve_decision. Defined.

End Status.

(** [boost::system::error_code]: a category and a value; it converts to
    [true] when the value is not zero. *)
Module Error.

Inductive Category :=
| system_category | generic_category | ssl_category | misc_category
| netdb_category | addrinfo_category.

Record error_code := mk { category : Category; value : Z }.

#[global] Instance Category_eq_dec : EqDecision Category.
Proof. solve_decision. Defined.

(** [if (ec)] *)
Definition is_set (ec : error_code) : bool := negb (value ec =? 0).

(** The macros and numbers of OpenSSL 1.0 ([err.h], [ssl.h]). *)
Definition ERR_PACK (l f r : Z) : Z :=
  Z.lor (Z.lor (Z.land l 255 * 16777216) (Z.land f 4095 * 4096))
        (Z.land r 4095).
Definition ERR_GET_LIB (l : Z) : Z := Z.land (Z.shiftr l 24) 255.
Definition ERR_GET_FUNC (l : Z) : Z := Z.land (Z.shiftr l 12) 4095.
Definition ERR_GET_REASON (l : Z) : Z := Z.land l 4095.
Definition ERR_LIB_SSL : Z := 20.
Definition SSL_R_SHORT_READ : Z := 219.
Definition SSL_R_DECRYPTION_FAILED_OR_BAD_RECORD_MAC : Z := 281.

(** [boost::asio::error::eof], of the misc category. *)
Definition eof : Z := 2.
(** [ECANCELED], the value of both [asio::error::operation_aborted] and
    [boost::system::errc::operation_canceled]. *)
Definition operation_aborted : Z := 125.
Definition operation_canceled : Z := 125.

End Error.

(** ** Logging and streams *)

Module Log.

(** Modelled from the spec: the enumeration [Log::Severity] is declared
    outside the sources verified here; these are the levels the code names. *)
Inductive Severity := FATAL | ERROR | MSG | DEBUG | INSANE.

(** One operand of a chain of [operator<<].  The operands are kept as
    they are handed to the stream; how an enumerator or a number is
    rendered is the stream's business.  [Ec_message] is [ec.message()];
    [Clock] stands for a value
    computed in floating point from [chrono::steady_clock]. *)
Inductive Item :=
| Txt (s : string)
| Chr (c : ascii)
| Num (z : Z)
| Bool (b : bool)
| St (s : State.t)
| Cap (c : Capability.t)
| Sts (c : Status.t)
| Ec_message (ec : Error.error_code)
| Clock (what : string).

(** What was streamed into an [ostream], left to right. *)
Definition Stream := list Item.

(** One record written to the logger: [BOOST_LOG] carries no level
    ([None]), [BOOST_LOG_SEV] carries the level given. *)
Record Record_ := mk { severity : option Severity; message : Stream }.

End Log.

Import Log (Txt, Chr, Num, Bool, St, Cap, Sts, Ec_message, Clock).

(** ** net/ssl_verification.cc *)

Module SSL.

(** *** boost::algorithm *)

Definition hex_digit (n : N) : ascii :=
  match n with
  | 0%N => "0" | 1%N => "1" | 2%N => "2" | 3%N => "3"
  | 4%N => "4" | 5%N => "5" | 6%N => "6" | 7%N => "7"
  | 8%N => "8" | 9%N => "9" | 10%N => "A" | 11%N => "B"
  | 12%N => "C" | 13%N => "D" | 14%N => "E" | _ => "F"
  end%char.

(** [boost::algorithm::hex]: two upper-case digits per octet, high
    nibble first. *)
Fixpoint hex (bs : list byte) : string :=
  match bs with
  | [] => EmptyString
  | b :: bs' =>
      let n := Byte.to_N b in
      String (hex_digit (n / 16)) (String (hex_digit (n mod 16)) (hex bs'))
  end.

(** [std::toupper] in the "C" locale. *)
Definition toupper (c : ascii) : ascii :=
  let n := N_of_ascii c in
  if ((97 <=? n) && (n <=? 122))%N then ascii_of_N (n - 32) else c.

(** [boost::to_upper_copy]. *)
Fixpoint to_upper_copy (s : string) : string :=
  match s with
  | EmptyString => EmptyString
  | String c s' => String (toupper c) (to_upper_copy s')
  end.

(** *** Verification *)

(** OpenSSL and asio, as the verifier uses them. *)
Class OpenSSL := {
  X509 : Type;
  verify_context : Type;
  X509_STORE_CTX_get_current_cert : verify_context -> X509;
  (** [X509_digest] with [EVP_sha1()]: the octets written to the
      buffer, [size] of them. *)
  X509_digest : X509 -> list byte;
  (** [X509_NAME_oneline] of [X509_get_subject_name]. *)
  X509_subject : X509 -> string;
  X509_STORE_CTX_get_error : verify_context -> Z;
  X509_verify_cert_error_string : Z -> string;
  (** [asio::ssl::rfc2818_verification], the default PKI and host name
      check: constructed with the host name, called with the
      preverification result and the context. *)
  rfc2818_verification : string -> bool -> verify_context -> bool
}.

Section Verification.

Context `{OpenSSL}.

(** What one invocation does to its collaborators. *)
Inductive Event :=
| Ev_log (r : Log.Record_)
| Ev_default (preverified : bool) (ctx : verify_context).

Definition is_default (e : Event) : bool :=
  match e with Ev_default _ _ => true | Ev_log _ => false end.

(** The members of [Net::SSL::Verification].  [hostname_] is the
    argument [default_] was constructed with; [trace_] collects the
    events. *)
Record Verification := mk {
  hostname_ : string;
  fingerprint_ : string;
  pos_ : Z;
  result_ : bool;
  trace_ : list Event
}.

(** Modelled from the spec: the header [ssl_verification.h] is outside
    the sources verified here; it gives the members their initial
    values, position 0 and no cached result, and [pos_] is taken to
    be [unsigned]. *)
Definition Verification_ (hostname fingerprint : string) : Verification :=
  mk hostname (to_upper_copy fingerprint) 0 false [].

Definition log (sev : option Log.Severity) (msg : Log.Stream)
    (v : Verification) : Verification :=
  mk (hostname_ v) (fingerprint_ v) (pos_ v) (result_ v)
     (trace_ v ++ [Ev_log (Log.mk sev msg)]).

Definition set_pos_ (p : Z) (v : Verification) : Verification :=
  mk (hostname_ v) (fingerprint_ v) p (result_ v) (trace_ v).

Definition set_result_ (r : bool) (v : Verification) : Verification :=
  mk (hostname_ v) (fingerprint_ v) (pos_ v) r (trace_ v).

(** [default_(preverified, ctx)] *)
Definition default_ (preverified : bool) (ctx : verify_context)
    (v : Verification) : bool * Verification :=
  (rfc2818_verification (hostname_ v) preverified ctx,
   mk (hostname_ v) (fingerprint_ v) (pos_ v) (result_ v)
      (trace_ v ++ [Ev_default preverified ctx])).

(** The fingerprint the verifier computes for the current
    certificate, [fp.str()]. *)
Definition fp_str (ctx : verify_context) : string :=
  hex (X509_digest (X509_STORE_CTX_get_current_cert ctx)).

(** The chain position an invocation on [v] works at: [pos_] after
    [++pos_]. *)
Definition position (v : Verification) : Z := (pos_ v + 1) mod 2 ^ 32.

(** [bool Verification::operator()(bool preverified, verify_context &ctx)] *)
Definition call (preverified : bool) (ctx : verify_context)
    (v : Verification) : bool * Verification :=
  let v := set_pos_ ((pos_ v + 1) mod 2 ^ 32) v in
  let cert := X509_STORE_CTX_get_current_cert ctx in
  let fp := hex (X509_digest cert) in
  let v := log None [Txt "SHA1 fingerprint of certificate  (position ";
                     Num (pos_ v); Txt "): "; Txt fp] v in
  let v := log None [Txt "Certificate subject: ";
                     Txt (X509_subject cert)] v in
  let v := log None [Txt "Pre-Verification result: ";
                     Bool preverified] v in
  if result_ v then (result_ v, v)
  else if negb (String.eqb (fingerprint_ v) "") && (pos_ v =? 1) then
    let v :=
      if pos_ v =? 1 then
        let v := log None [Txt "Verifying fingerprint ..."] v in
        let v := set_result_ (String.eqb (fingerprint_ v) fp) v in
        if result_ v then
          log None [Txt "Fingerprint matches. Authentication finished."] v
        else
          log (Some Log.FATAL)
              [Txt "Given fingerprint "; Txt (fingerprint_ v);
               Txt " does not match the one of the certificate: ";
               Txt fp] v
      else v in
    (result_ v, v)
  else
    let '(r, v) := default_ preverified ctx v in
    let v :=
      if negb r then
        let rc := X509_STORE_CTX_get_error ctx in
        log (Some Log.FATAL)
            [Txt "Certificate verification failed: ";
             Txt (X509_verify_cert_error_string rc);
             Txt " (return code: "; Num rc; Txt ")"] v
      else v in
    (r, v).

(** The events one invocation adds to the trace. *)
Definition events_of (preverified : bool) (ctx : verify_context)
    (v : Verification) : list Event :=
  drop (length (trace_ v)) (trace_ (snd (call preverified ctx v))).

End Verification.

End SSL.

(** ** Collaborators of the copy client *)

(** What leaves a function through [throw]. *)
Inductive Exception :=
| Throw_error (ec : Error.error_code)   (* THROW_ERROR(ec) *)
| Throw_msg (what : Log.Stream).        (* THROW_MSG(o.str()) *)

(** The command writer, [IMAP::Client::Writer]. *)
Module Writer.

(** Modelled from the spec: the writer is outside the sources verified
    here.  The code names the mode [REPLACE]; the other two are the
    modes a STORE has in IMAP. *)
Inductive Store_Mode := REPLACE | ADD | REMOVE.

(** Modelled from the spec: [IMAP::Client::Fetch], of which the code
    names [UID], [FLAGS] and [BODY_PEEK]. *)
Inductive Fetch := UID | FLAGS | BODY | BODY_PEEK.

(** Modelled from the spec: [IMAP::Section], of which the code names
    [HEADER_FIELDS]. *)
Inductive Section := HEADER | HEADER_FIELDS | TEXT.

Record Section_Attribute :=
  mk_section { section : Section; fields : list string }.

Record Fetch_Attribute :=
  mk_att { fetch_ : Fetch; section_ : option Section_Attribute }.

(** Modelled from the spec: the calls of the writer, section 6.  Each
    call produces an IMAP command into a byte buffer, handed to the
    callback the writer was constructed with, and a freshly allocated
    tag.  A command is kept as the call that produced it. *)
Inductive Request :=
| capability
| login (username password : string)
| select (mailbox : string)
| fetch (set : list (Z * Z)) (atts : list Fetch_Attribute)
| uid_store (set : list (Z * Z)) (flags : list Flag.t)
            (mode : Store_Mode) (silent : bool)
| uid_expunge (set : list (Z * Z))
| expunge
| logout.

(** The bytes of one command: its tag and what was asked for. *)
Record Command := mk { tag : string; request : Request }.

Fixpoint digits (fuel : nat) (n : N) (acc : string) : string :=
  match fuel with
  | O => acc
  | S fuel' =>
      let acc' := String (ascii_of_N (48 + n mod 10)) acc in
      if (n / 10 =? 0)%N then acc' else digits fuel' (n / 10)%N acc'
  end.

(** Modelled from the spec: the tag with number [n]; tags are a letter
    and a number in the scenarios of section 8 (A1, A3). *)
Definition tag_of (n : N) : string :=
  String "A"%char (digits (S (N.to_nat (N.log2 n))) n EmptyString).

End Writer.

(** The container of [uids_]. *)
Module Range_Set.

(** Modelled from the spec: the container is outside the sources verified
    here.  Section 3: the UIDs of the fetched messages, in order, stored
    as ranges fit for an IMAP sequence set.  The newest range is
    first. *)
Definition t := list (Z * Z).

(** Modelled from the spec: what [uids_.clear()] leaves. *)
Definition empty : t := [].

(** Modelled from the spec: [uids_.push(number)]; a UID that continues
    the newest range extends it, any other starts a range. *)
Definition push (n : Z) (r : t) : t :=
  match r with
  | (a, b) :: r' => if n =? b + 1 then (a, n) :: r' else (n, n) :: r
  | [] => [(n, n)]
  end.

(** Modelled from the spec: [uids_.copy(set)], the ranges, oldest
    first. *)
Definition copy (r : t) : list (Z * Z) := rev r.

(** [n] lies in one of the ranges of a sequence set. *)
Definition mem (n : Z) (set : list (Z * Z)) : Prop :=
  Exists (fun ab => fst ab <= n <= snd ab) set.

End Range_Set.

(** [Memory::Buffer]. *)
Module Buffer.

(** Modelled from the spec: the buffers are outside the sources verified
    here.  Section 3: the proxy points at the memory buffer or at the
    file buffer. *)
Inductive Target := To_buffer | To_file_buffer.

(** Modelled from the spec: the file buffer is the temporary file of the
    message in flight: its name, whether it is open, what was written. *)
Record File := mk {
  name : option string;
  is_open : bool;
  contents : string
}.

(** Modelled from the spec: a file buffer before any file was opened. *)
Definition closed : File := mk None false EmptyString.

(** Modelled from the spec: [Buffer::File f(dir, filename)]. *)
Definition open (filename : string) : File :=
  mk (Some filename) true EmptyString.

(** Modelled from the spec: [file_buffer_.close()]. *)
Definition close (f : File) : File := mk (name f) false (contents f).

End Buffer.

(** [Maildir]. *)
Module Maildir.

(** Modelled from the spec: the maildir is outside the sources verified
    here.  Section 6: [create_tmp_name], [move_to_new],
    [move_to_cur(flags)].  A delivery is where a temporary file went. *)
Inductive Delivery :=
| New (tmp_name : string)
| Cur (tmp_name : string) (flags : string).

(** Modelled from the spec: the maildir numbers the temporary names,
    remembers the newest, and records the deliveries. *)
Record t := mk {
  created : N;
  tmp_name : string;
  delivered : list Delivery
}.

Definition empty : t := mk 0 EmptyString [].

(** Modelled from the spec: [create_tmp_name(filename)], the new name and
    the maildir that remembers it. *)
Definition create_tmp_name (m : t) : string * t :=
  let n := String "t"%char (Writer.digits (S (N.to_nat (N.log2 (created m))))
                                          (created m) EmptyString) in
  (n, mk (created m + 1) n (delivered m)).

(** Modelled from the spec: [move_to_new()]. *)
Definition move_to_new (m : t) : t :=
  mk (created m) (tmp_name m) (delivered m ++ [New (tmp_name m)]).

(** Modelled from the spec: [move_to_cur(flags)]. *)
Definition move_to_cur (flags : string) (m : t) : t :=
  mk (created m) (tmp_name m) (delivered m ++ [Cur (tmp_name m) flags]).

End Maildir.

(** ** The copy client *)

Module Copy.

(** Modelled from the spec: [IMAP::Copy::Options] (options.h) is outside
    the sources verified here; these are the fields the client reads
    (section 6, configuration options). *)
Record Options := mk_options {
  host : string;
  username : string;
  password : string;
  mailbox : string;
  maildir : string;
  cipher : string;
  use_ssl : bool;
  greeting_wait : Z;
  del : bool
}.

(** Calls on the transport ([client_]), the signal set, the timers and
    the logger, in program order. *)
Inductive Event :=
| Ev_log (r : Log.Record_)
| Ev_signals_async_wait
| Ev_signals_cancel
| Ev_async_resolve
| Ev_async_connect
| Ev_async_handshake
| Ev_async_read_some
| Ev_push_write (cmd : option Writer.Command)
| Ev_cancel
| Ev_async_shutdown
| Ev_close
| Ev_login_timer_expires_from_now (milliseconds : Z)
| Ev_login_timer_async_wait
| Ev_fetch_timer_expires_from_now (seconds : Z)
| Ev_fetch_timer_async_wait
| Ev_fetch_timer_cancel.

(** The members of [IMAP::Copy::Client].  [tags_] is the tag generator
    of the writer, [bytes_read_] what [client_->bytes_read()] answers,
    [trace_] the events so far. *)
Record Client := mk {
  opts_ : Options;
  state_ : State.t;
  capabilities_ : gset Capability.t;
  tag_to_state_ : gmap string State.t;
  tags_ : N;
  cmd_ : option Writer.Command;
  tag_buffer_ : string;
  buffer_ : string;
  buffer_proxy_ : Buffer.Target;
  file_buffer_ : Buffer.File;
  maildir_ : Maildir.t;
  flags_ : string;
  full_body_ : bool;
  fetched_messages_ : Z;
  exists_ : Z;
  recent_ : Z;
  uidvalidity_ : Z;
  uids_ : Range_Set.t;
  signaled_ : Z;
  fetch_bytes_start_ : Z;
  bytes_read_ : Z;
  trace_ : list Event
}.

Definition set_state_ (x : State.t) (c : Client) : Client :=
  mk (opts_ c) x (capabilities_ c) (tag_to_state_ c) (tags_ c) (cmd_ c)
    (tag_buffer_ c) (buffer_ c) (buffer_proxy_ c) (file_buffer_ c)
    (maildir_ c) (flags_ c) (full_body_ c) (fetched_messages_ c)
    (exists_ c) (recent_ c) (uidvalidity_ c) (uids_ c) (signaled_ c)
    (fetch_bytes_start_ c) (bytes_read_ c) (trace_ c).

Definition set_capabilities_ (x : gset Capability.t) (c : Client) : Client :=
  mk (opts_ c) (state_ c) x (tag_to_state_ c) (tags_ c) (cmd_ c)
    (tag_buffer_ c) (buffer_ c) (buffer_proxy_ c) (file_buffer_ c)
    (maildir_ c) (flags_ c) (full_body_ c) (fetched_messages_ c)
    (exists_ c) (recent_ c) (uidvalidity_ c) (uids_ c) (signaled_ c)
    (fetch_bytes_start_ c) (bytes_read_ c) (trace_ c).

Definition set_tag_to_state_ (x : gmap string State.t) (c : Client) : Client :=
  mk (opts_ c) (state_ c) (capabilities_ c) x (tags_ c) (cmd_ c)
    (tag_buffer_ c) (buffer_ c) (buffer_proxy_ c) (file_buffer_ c)
    (maildir_ c) (flags_ c) (full_body_ c) (fetched_messages_ c)
    (exists_ c) (recent_ c) (uidvalidity_ c) (uids_ c) (signaled_ c)
    (fetch_bytes_start_ c) (bytes_read_ c) (trace_ c).

Definition set_tags_ (x : N) (c : Client) : Client :=
  mk (opts_ c) (state_ c) (capabilities_ c) (tag_to_state_ c) x (cmd_ c)
    (tag_buffer_ c) (buffer_ c) (buffer_proxy_ c) (file_buffer_ c)
    (maildir_ c) (flags_ c) (full_body_ c) (fetched_messages_ c)
    (exists_ c) (recent_ c) (uidvalidity_ c) (uids_ c) (signaled_ c)
    (fetch_bytes_start_ c) (bytes_read_ c) (trace_ c).

Definition set_cmd_ (x : option Writer.Command) (c : Client) : Client :=
  mk (opts_ c) (state_ c) (capabilities_ c) (tag_to_state_ c) (tags_ c) x
    (tag_buffer_ c) (buffer_ c) (buffer_proxy_ c) (file_buffer_ c)
    (maildir_ c) (flags_ c) (full_body_ c) (fetched_messages_ c)
    (exists_ c) (recent_ c) (uidvalidity_ c) (uids_ c) (signaled_ c)
    (fetch_bytes_start_ c) (bytes_read_ c) (trace_ c).

Definition set_tag_buffer_ (x : string) (c : Client) : Client :=
  mk (opts_ c) (state_ c) (capabilities_ c) (tag_to_state_ c) (tags_ c)
    (cmd_ c) x (buffer_ c) (buffer_proxy_ c) (file_buffer_ c) (maildir_ c)
    (flags_ c) (full_body_ c) (fetched_messages_ c) (exists_ c)
    (recent_ c) (uidvalidity_ c) (uids_ c) (signaled_ c)
    (fetch_bytes_start_ c) (bytes_read_ c) (trace_ c).

Definition set_buffer_ (x : string) (c : Client) : Client :=
  mk (opts_ c) (state_ c) (capabilities_ c) (tag_to_state_ c) (tags_ c)
    (cmd_ c) (tag_buffer_ c) x (buffer_proxy_ c) (file_buffer_ c)
    (maildir_ c) (flags_ c) (full_body_ c) (fetched_messages_ c)
    (exists_ c) (recent_ c) (uidvalidity_ c) (uids_ c) (signaled_ c)
    (fetch_bytes_start_ c) (bytes_read_ c) (trace_ c).

Definition set_buffer_proxy_ (x : Buffer.Target) (c : Client) : Client :=
  mk (opts_ c) (state_ c) (capabilities_ c) (tag_to_state_ c) (tags_ c)
    (cmd_ c) (tag_buffer_ c) (buffer_ c) x (file_buffer_ c) (maildir_ c)
    (flags_ c) (full_body_ c) (fetched_messages_ c) (exists_ c)
    (recent_ c) (uidvalidity_ c) (uids_ c) (signaled_ c)
    (fetch_bytes_start_ c) (bytes_read_ c) (trace_ c).

Definition set_file_buffer_ (x : Buffer.File) (c : Client) : Client :=
  mk (opts_ c) (state_ c) (capabilities_ c) (tag_to_state_ c) (tags_ c)
    (cmd_ c) (tag_buffer_ c) (buffer_ c) (buffer_proxy_ c) x (maildir_ c)
    (flags_ c) (full_body_ c) (fetched_messages_ c) (exists_ c)
    (recent_ c) (uidvalidity_ c) (uids_ c) (signaled_ c)
    (fetch_bytes_start_ c) (bytes_read_ c) (trace_ c).

Definition set_maildir_ (x : Maildir.t) (c : Client) : Client :=
  mk (opts_ c) (state_ c) (capabilities_ c) (tag_to_state_ c) (tags_ c)
    (cmd_ c) (tag_buffer_ c) (buffer_ c) (buffer_proxy_ c)
    (file_buffer_ c) x (flags_ c) (full_body_ c) (fetched_messages_ c)
    (exists_ c) (recent_ c) (uidvalidity_ c) (uids_ c) (signaled_ c)
    (fetch_bytes_start_ c) (bytes_read_ c) (trace_ c).

Definition set_flags_ (x : string) (c : Client) : Client :=
  mk (opts_ c) (state_ c) (capabilities_ c) (tag_to_state_ c) (tags_ c)
    (cmd_ c) (tag_buffer_ c) (buffer_ c) (buffer_proxy_ c)
    (file_buffer_ c) (maildir_ c) x (full_body_ c) (fetched_messages_ c)
    (exists_ c) (recent_ c) (uidvalidity_ c) (uids_ c) (signaled_ c)
    (fetch_bytes_start_ c) (bytes_read_ c) (trace_ c).

Definition set_full_body_ (x : bool) (c : Client) : Client :=
  mk (opts_ c) (state_ c) (capabilities_ c) (tag_to_state_ c) (tags_ c)
    (cmd_ c) (tag_buffer_ c) (buffer_ c) (buffer_proxy_ c)
    (file_buffer_ c) (maildir_ c) (flags_ c) x (fetched_messages_ c)
    (exists_ c) (recent_ c) (uidvalidity_ c) (uids_ c) (signaled_ c)
    (fetch_bytes_start_ c) (bytes_read_ c) (trace_ c).

Definition set_fetched_messages_ (x : Z) (c : Client) : Client :=
  mk (opts_ c) (state_ c) (capabilities_ c) (tag_to_state_ c) (tags_ c)
    (cmd_ c) (tag_buffer_ c) (buffer_ c) (buffer_proxy_ c)
    (file_buffer_ c) (maildir_ c) (flags_ c) (full_body_ c) x (exists_ c)
    (recent_ c) (uidvalidity_ c) (uids_ c) (signaled_ c)
    (fetch_bytes_start_ c) (bytes_read_ c) (trace_ c).

Definition set_exists_ (x : Z) (c : Client) : Client :=
  mk (opts_ c) (state_ c) (capabilities_ c) (tag_to_state_ c) (tags_ c)
    (cmd_ c) (tag_buffer_ c) (buffer_ c) (buffer_proxy_ c)
    (file_buffer_ c) (maildir_ c) (flags_ c) (full_body_ c)
    (fetched_messages_ c) x (recent_ c) (uidvalidity_ c) (uids_ c)
    (signaled_ c) (fetch_bytes_start_ c) (bytes_read_ c) (trace_ c).

Definition set_recent_ (x : Z) (c : Client) : Client :=
  mk (opts_ c) (state_ c) (capabilities_ c) (tag_to_state_ c) (tags_ c)
    (cmd_ c) (tag_buffer_ c) (buffer_ c) (buffer_proxy_ c)
    (file_buffer_ c) (maildir_ c) (flags_ c) (full_body_ c)
    (fetched_messages_ c) (exists_ c) x (uidvalidity_ c) (uids_ c)
    (signaled_ c) (fetch_bytes_start_ c) (bytes_read_ c) (trace_ c).

Definition set_uidvalidity_ (x : Z) (c : Client) : Client :=
  mk (opts_ c) (state_ c) (capabilities_ c) (tag_to_state_ c) (tags_ c)
    (cmd_ c) (tag_buffer_ c) (buffer_ c) (buffer_proxy_ c)
    (file_buffer_ c) (maildir_ c) (flags_ c) (full_body_ c)
    (fetched_messages_ c) (exists_ c) (recent_ c) x (uids_ c)
    (signaled_ c) (fetch_bytes_start_ c) (bytes_read_ c) (trace_ c).

Definition set_uids_ (x : Range_Set.t) (c : Client) : Client :=
  mk (opts_ c) (state_ c) (capabilities_ c) (tag_to_state_ c) (tags_ c)
    (cmd_ c) (tag_buffer_ c) (buffer_ c) (buffer_proxy_ c)
    (file_buffer_ c) (maildir_ c) (flags_ c) (full_body_ c)
    (fetched_messages_ c) (exists_ c) (recent_ c) (uidvalidity_ c) x
    (signaled_ c) (fetch_bytes_start_ c) (bytes_read_ c) (trace_ c).

Definition set_signaled_ (x : Z) (c : Client) : Client :=
  mk (opts_ c) (state_ c) (capabilities_ c) (tag_to_state_ c) (tags_ c)
    (cmd_ c) (tag_buffer_ c) (buffer_ c) (buffer_proxy_ c)
    (file_buffer_ c) (maildir_ c) (flags_ c) (full_body_ c)
    (fetched_messages_ c) (exists_ c) (recent_ c) (uidvalidity_ c)
    (uids_ c) x (fetch_bytes_start_ c) (bytes_read_ c) (trace_ c).

Definition set_fetch_bytes_start_ (x : Z) (c : Client) : Client :=
  mk (opts_ c) (state_ c) (capabilities_ c) (tag_to_state_ c) (tags_ c)
    (cmd_ c) (tag_buffer_ c) (buffer_ c) (buffer_proxy_ c)
    (file_buffer_ c) (maildir_ c) (flags_ c) (full_body_ c)
    (fetched_messages_ c) (exists_ c) (recent_ c) (uidvalidity_ c)
    (uids_ c) (signaled_ c) x (bytes_read_ c) (trace_ c).

Definition set_bytes_read_ (x : Z) (c : Client) : Client :=
  mk (opts_ c) (state_ c) (capabilities_ c) (tag_to_state_ c) (tags_ c)
    (cmd_ c) (tag_buffer_ c) (buffer_ c) (buffer_proxy_ c)
    (file_buffer_ c) (maildir_ c) (flags_ c) (full_body_ c)
    (fetched_messages_ c) (exists_ c) (recent_ c) (uidvalidity_ c)
    (uids_ c) (signaled_ c) (fetch_bytes_start_ c) x (trace_ c).

Definition set_trace_ (x : list Event) (c : Client) : Client :=
  mk (opts_ c) (state_ c) (capabilities_ c) (tag_to_state_ c) (tags_ c)
    (cmd_ c) (tag_buffer_ c) (buffer_ c) (buffer_proxy_ c)
    (file_buffer_ c) (maildir_ c) (flags_ c) (full_body_ c)
    (fetched_messages_ c) (exists_ c) (recent_ c) (uidvalidity_ c)
    (uids_ c) (signaled_ c) (fetch_bytes_start_ c) (bytes_read_ c) x.

(** *** The state and error monad *)

(** How a call ends: it returns, an exception leaves it, or the model
    ran out of fuel (see [command]). *)
Inductive Result (A : Type) :=
| Ok (a : A)
| Throw (e : Exception)
| Out_of_fuel.
Arguments Ok {A}.
Arguments Throw {A}.
Arguments Out_of_fuel {A}.

Definition M (A : Type) : Type := Client -> Result A * Client.

#[global] Instance M_ret : MRet M := fun A a c => (Ok a, c).

#[global] Instance M_bind : MBind M := fun A B f m c =>
  match m c with
  | (Ok a, c') => f a c'
  | (Throw e, c') => (Throw e, c')
  | (Out_of_fuel, c') => (Out_of_fuel, c')
  end.

Definition throw {A} (e : Exception) : M A := fun c => (Throw e, c).
Definition out_of_fuel {A} : M A := fun c => (Out_of_fuel, c).
Definition gets {A} (f : Client -> A) : M A := fun c => (Ok (f c), c).
Definition modify (f : Client -> Client) : M unit := fun c => (Ok (), f c).
Definition emit (e : Event) : M unit :=
  modify (fun c => set_trace_ (trace_ c ++ [e]) c).
Definition skip : M unit := mret ().

(** [BOOST_LOG(lg_) << ...] and [BOOST_LOG_SEV(lg_, sev) << ...] *)
Definition BOOST_LOG (msg : Log.Stream) : M unit :=
  emit (Ev_log (Log.mk None msg)).
Definition BOOST_LOG_SEV (sev : Log.Severity) (msg : Log.Stream) : M unit :=
  emit (Ev_log (Log.mk (Some sev) msg)).

Definition THROW_ERROR {A} (ec : Error.error_code) : M A :=
  throw (Throw_error ec).
Definition THROW_MSG {A} (what : Log.Stream) : M A :=
  throw (Throw_msg what).

(** *** The writer, as the client drives it *)

(** [void Client::to_cmd(vector<char> &x)]: the swap leaves the new
    command in [cmd_]; what it hands back to the writer is dropped. *)
Definition to_cmd (x : option Writer.Command) : M unit :=
  modify (set_cmd_ x).

(** One call [writer_.f(..., tag)]: a fresh tag is allocated, the
    command goes through [to_cmd], the tag is returned by reference. *)
Definition writer_ (r : Writer.Request) : M string :=
  n ← gets tags_;
  modify (set_tags_ (n + 1)%N);;
  to_cmd (Some (Writer.mk (Writer.tag_of n) r));;
  mret (Writer.tag_of n).

(** [tag_to_state_[tag] = s] *)
Definition register (tag : string) (st : State.t) : M unit :=
  modify (fun c => set_tag_to_state_ (<[tag := st]> (tag_to_state_ c)) c).

(** *** Transport and shutdown *)

(** [void Client::do_signal_wait()]; the completion handler is
    [do_signal_wait_handler]. *)
Definition do_signal_wait : M unit := emit Ev_signals_async_wait.

(** [void Client::do_write()] *)
Definition do_write : M unit :=
  c ← gets cmd_; emit (Ev_push_write c).

(** [void Client::do_shutdown()]; the completion handler is
    [do_shutdown_handler]. *)
Definition do_shutdown : M unit := emit Ev_async_shutdown.

(** [void Client::do_quit()] *)
Definition do_quit : M unit :=
  BOOST_LOG_SEV Log.DEBUG [Txt "do_quit()"];;
  emit Ev_cancel;;
  do_shutdown.

(** The handler given to [async_shutdown]. *)
Definition do_shutdown_handler (ec : Error.error_code) : M unit :=
  (if Error.is_set ec then
     if bool_decide (Error.category ec = Error.ssl_category)
        && (Error.value ec
            =? Error.ERR_PACK Error.ERR_LIB_SSL 0 Error.SSL_R_SHORT_READ)
     then skip
     else if bool_decide (Error.category ec = Error.ssl_category)
             && (Error.ERR_GET_REASON (Error.value ec)
                 =? Error.SSL_R_DECRYPTION_FAILED_OR_BAD_RECORD_MAC)
     then skip
     else
       (if bool_decide (Error.category ec = Error.ssl_category) then
          BOOST_LOG_SEV Log.ERROR
            [Txt "ssl_category: lib "; Num (Error.ERR_GET_LIB (Error.value ec));
             Txt " func "; Num (Error.ERR_GET_FUNC (Error.value ec));
             Txt " reason "; Num (Error.ERR_GET_REASON (Error.value ec))]
        else skip);;
       BOOST_LOG_SEV Log.DEBUG [Txt "do_shutdown() fail: "; Ec_message ec];;
       THROW_ERROR ec
   else skip);;
  emit Ev_close;;
  emit Ev_signals_cancel.

(** The handler given to [signals_.async_wait]. *)
Definition do_signal_wait_handler (ec : Error.error_code)
    (signal_number : Z) : M unit :=
  if Error.is_set ec then
    if Error.value ec =? Error.operation_canceled then skip
    else THROW_ERROR ec
  else
    BOOST_LOG_SEV Log.ERROR [Txt "Got signal: "; Num signal_number];;
    signaled ← gets signaled_;
    if negb (signaled =? 0) then
      THROW_MSG [Txt "Got a signal ("; Num signal_number;
                 Txt ") the second time - immediate exit"]
    else
      modify (set_signaled_ ((signaled + 1) mod 2 ^ 32));;
      do_signal_wait;;
      do_quit.

(** *** The fetch statistics timer *)

(** [void Client::print_fetch_stats()]; the elapsed time and the rate
    are floating point values read off the steady clock. *)
Definition print_fetch_stats : M unit :=
  c ← gets id;
  let b := (bytes_read_ c - fetch_bytes_start_ c) mod 2 ^ 64 in
  BOOST_LOG_SEV Log.MSG
    [Txt "Fetched "; Num (fetched_messages_ c); Txt " messages (";
     Num b; Txt " bytes) in "; Clock "d.count()/1000.0"; Txt " s (@ ";
     Clock "r"; Txt " KiB/s)"].

(** [void Client::resume_fetch_timer()]; the completion handler is
    [resume_fetch_timer_handler]. *)
Definition resume_fetch_timer : M unit :=
  emit (Ev_fetch_timer_expires_from_now 1);;
  emit Ev_fetch_timer_async_wait.

(** The handler given to [fetch_timer_.async_wait]. *)
Definition resume_fetch_timer_handler (ec : Error.error_code) : M unit :=
  if Error.is_set ec then
    if Error.value ec =? Error.operation_aborted then skip
    else THROW_ERROR ec
  else
    print_fetch_stats;;
    resume_fetch_timer.

(** [void Client::start_fetch_timer()]; [fetch_start_] is a reading of
    the steady clock and has no member in the model. *)
Definition start_fetch_timer : M unit :=
  b ← gets bytes_read_;
  modify (set_fetch_bytes_start_ b);;
  resume_fetch_timer.

(** [void Client::stop_fetch_timer()] *)
Definition stop_fetch_timer : M unit :=
  print_fetch_stats;;
  emit Ev_fetch_timer_cancel.

(** *** The session state machine *)

(** [bool Client::has_uidplus() const] *)
Definition has_uidplus : M bool :=
  caps ← gets capabilities_;
  let r := bool_decide (Capability.UIDPLUS ∈ caps) in
  BOOST_LOG [Txt "Has UIDPLUS capability: "; Bool r];;
  mret r.

(** [void Client::do_capabilities()]; [command] is the member function
    it calls back into. *)
Definition do_capabilities (command : M unit) : M unit :=
  caps ← gets capabilities_;
  if negb (bool_decide (caps = ∅)) then
    st ← gets state_;
    BOOST_LOG [Txt "Switch from state "; St st; Txt " to ";
               St (State.plus st 1)];;
    modify (set_state_ (State.incr st));;
    command
  else
    tag ← writer_ Writer.capability;
    st ← gets state_;
    register tag (State.plus st 1);;
    BOOST_LOG [Txt "Getting CAPABILITIES ..."; Txt " ["; Txt tag; Chr "]"];;
    do_write.

(** [void Client::do_login()] *)
Definition do_login : M unit :=
  caps ← gets capabilities_;
  (if bool_decide (Capability.LOGINDISABLED ∈ caps) then
     THROW_MSG [Txt "Cannot login because server has LOGINDISABLED"]
   else skip);;
  BOOST_LOG_SEV Log.DEBUG [Txt "Clearing capabilities"];;
  modify (set_capabilities_ ∅);;
  o ← gets opts_;
  tag ← writer_ (Writer.login (username o) (password o));
  register tag State.LOGGED_IN;;
  modify (set_exists_ 0);;
  modify (set_recent_ 0);;
  modify (set_uidvalidity_ 0);;
  modify (set_uids_ Range_Set.empty);;
  BOOST_LOG [Txt "Logging in as |"; Txt (username o); Txt "| ["; Txt tag;
             Txt "]"];;
  BOOST_LOG_SEV Log.INSANE [Txt "Password: |"; Txt (password o); Txt "|"];;
  do_write.

(** [void Client::do_select()] *)
Definition do_select : M unit :=
  o ← gets opts_;
  tag ← writer_ (Writer.select (mailbox o));
  register tag State.SELECTED_MAILBOX;;
  BOOST_LOG [Txt "Selecting mailbox: |"; Txt (mailbox o); Txt "|";
             Txt " ["; Txt tag; Chr "]"];;
  do_write.

(** The attributes [do_fetch] asks for. *)
Definition fetch_atts : list Writer.Fetch_Attribute :=
  [ Writer.mk_att Writer.UID None;
    Writer.mk_att Writer.FLAGS None;
    Writer.mk_att Writer.BODY_PEEK
      (Some (Writer.mk_section Writer.HEADER_FIELDS
               ["date"; "from"; "subject"]));
    Writer.mk_att Writer.BODY_PEEK None ].

(** [void Client::do_fetch()] *)
Definition do_fetch : M unit :=
  let set := [(1, 2 ^ 32 - 1)] in
  tag ← writer_ (Writer.fetch set fetch_atts);
  register tag State.FETCHED;;
  o ← gets opts_;
  BOOST_LOG [Txt "Fetching into "; Txt (maildir o); Txt " ..."; Txt " [";
             Txt tag; Chr "]"];;
  modify (set_state_ State.FETCHING);;
  start_fetch_timer;;
  do_write.

(** [void Client::do_logout()] *)
Definition do_logout : M unit :=
  tag ← writer_ Writer.logout;
  register tag State.LOGGED_OUT;;
  BOOST_LOG [Txt "Logging out ..."; Txt " ["; Txt tag; Chr "]"];;
  modify (set_state_ State.LOGGING_OUT);;
  do_write.

(** [void Client::do_fetch_or_logout()] *)
Definition do_fetch_or_logout : M unit :=
  n ← gets exists_;
  if negb (n =? 0) then do_fetch
  else
    o ← gets opts_;
    BOOST_LOG_SEV Log.MSG [Txt "Mailbox "; Txt (mailbox o); Txt " is empty."];;
    do_logout.

(** [void Client::do_store()] *)
Definition do_store : M unit :=
  let flags := [Flag.DELETED] in
  u ← gets uids_;
  let set := Range_Set.copy u in
  tag ← writer_ (Writer.uid_store set flags Writer.REPLACE true);
  register tag State.STORED;;
  BOOST_LOG [Txt "Storing DELETED flags ..."; Txt " ["; Txt tag; Chr "]"];;
  do_write.

(** [void Client::do_store_or_logout()] *)
Definition do_store_or_logout : M unit :=
  o ← gets opts_;
  if del o then do_store else do_logout.

(** [void Client::do_uid_expunge()] *)
Definition do_uid_expunge : M unit :=
  u ← gets uids_;
  let set := Range_Set.copy u in
  tag ← writer_ (Writer.uid_expunge set);
  register tag State.EXPUNGED;;
  BOOST_LOG [Txt "Expunging messages ..."; Txt " ["; Txt tag; Chr "]"];;
  do_write.

(** [void Client::do_expunge()] *)
Definition do_expunge : M unit :=
  tag ← writer_ Writer.expunge;
  register tag State.EXPUNGED;;
  BOOST_LOG [Txt "Expunging messages (without UIDPLUS) ..."; Txt " [";
             Txt tag; Chr "]"];;
  do_write.

(** [void Client::do_uid_or_simple_expunge()] *)
Definition do_uid_or_simple_expunge : M unit :=
  b ← has_uidplus;
  if (b : bool) then do_uid_expunge else do_expunge.

(** [void Client::command()].  [command] and [do_capabilities] call
    each other; [fuel] bounds the depth of that recursion. *)
Fixpoint command (fuel : nat) : M unit :=
  match fuel with
  | O => out_of_fuel
  | S fuel' =>
      st ← gets state_;
      match st with
      | State.FIRST_ | State.LAST_ | State.DISCONNECTED => skip
      | State.ESTABLISHED => skip
      | State.GOT_INITIAL_CAPABILITIES => do_login
      | State.LOGGED_IN => do_capabilities (command fuel')
      | State.GOT_CAPABILITIES => do_select
      | State.SELECTED_MAILBOX => do_fetch_or_logout
      | State.FETCHING => skip
      | State.FETCHED => stop_fetch_timer;; do_store_or_logout
      | State.STORED => do_uid_or_simple_expunge
      | State.EXPUNGED => do_logout
      | State.LOGGING_OUT => skip
      | State.LOGGED_OUT => do_quit
      | State.END => skip
      | State.Unnamed _ => skip
      end
  end.

(** *** Parser callbacks *)

(** [void Client::imap_status_code_capability_begin()] *)
Definition imap_status_code_capability_begin : M unit :=
  BOOST_LOG_SEV Log.DEBUG [Txt "Clearing capabilities"];;
  modify (set_capabilities_ ∅).

(** [void Client::imap_capability_begin()] *)
Definition imap_capability_begin : M unit := skip.

(** [void Client::imap_capability(Capability capability)] *)
Definition imap_capability (capability : Capability.t) : M unit :=
  BOOST_LOG [Txt "Got capability: "; Cap capability];;
  modify (fun c => set_capabilities_ ({[capability]} ∪ capabilities_ c) c).

(** [void Client::imap_tagged_status_end(Status c)] *)
Definition imap_tagged_status_end (fuel : nat) (c : Status.t) : M unit :=
  tag ← gets tag_buffer_;
  BOOST_LOG [Txt "Got status "; Sts c; Txt " for tag "; Txt tag];;
  (if negb (bool_decide (c = Status.OK)) then
     buffer ← gets buffer_;
     THROW_MSG [Txt "Command failed: "; Sts c; Txt " - "; Txt buffer]
   else skip);;
  m ← gets tag_to_state_;
  match m !! tag with
  | None => THROW_MSG [Txt "Got unknown tag: "; Txt tag]
  | Some second =>
      st ← gets state_;
      BOOST_LOG [Txt "Switch from state "; St st; Txt " to "; St second;
                 Txt " ["; Txt tag; Txt "]"];;
      modify (set_state_ second);;
      modify (set_tag_to_state_ (delete tag m));;
      command fuel
  end.

(** [void Client::imap_data_exists(uint32_t number)] *)
Definition imap_data_exists (number : Z) : M unit :=
  o ← gets opts_;
  BOOST_LOG [Txt "Mailbox "; Txt (mailbox o); Txt " contains "; Num number;
             Txt " messages"];;
  modify (set_exists_ number).

(** [void Client::imap_data_recent(uint32_t number)] *)
Definition imap_data_recent (number : Z) : M unit :=
  o ← gets opts_;
  BOOST_LOG [Txt "Mailbox "; Txt (mailbox o); Txt " has "; Num number;
             Txt " RECENT messages"];;
  modify (set_recent_ number).

(** [void Client::imap_status_code_uidvalidity(uint32_t n)] *)
Definition imap_status_code_uidvalidity (n : Z) : M unit :=
  BOOST_LOG [Txt "UIDVALIDITY: "; Num n];;
  modify (set_uidvalidity_ n).

(** [void Client::imap_data_fetch_begin(uint32_t number)] *)
Definition imap_data_fetch_begin (number : Z) : M unit :=
  modify (set_flags_ EmptyString);;
  st ← gets state_;
  if bool_decide (st = State.FETCHING) then
    BOOST_LOG [Txt "Fetching message: "; Num number]
  else skip.

(** [void Client::imap_data_fetch_end()] *)
Definition imap_data_fetch_end : M unit := skip.

(** [void Client::imap_section_empty()] *)
Definition imap_section_empty : M unit := modify (set_full_body_ true).

(** [void Client::imap_body_section_inner()] *)
Definition imap_body_section_inner : M unit :=
  st ← gets state_;
  if bool_decide (st = State.FETCHING) then
    full ← gets full_body_;
    if (full : bool) then
      md ← gets maildir_;
      let '(filename, md') := Maildir.create_tmp_name md in
      modify (set_maildir_ md');;
      modify (set_file_buffer_ (Buffer.open filename));;
      modify (set_buffer_proxy_ Buffer.To_file_buffer)
    else skip
  else skip.

(** [void Client::imap_body_section_end()] *)
Definition imap_body_section_end : M unit :=
  st ← gets state_;
  if bool_decide (st = State.FETCHING) then
    full ← gets full_body_;
    if (full : bool) then
      modify (set_buffer_proxy_ Buffer.To_buffer);;
      modify (fun c => set_file_buffer_ (Buffer.close (file_buffer_ c)) c);;
      flags ← gets flags_;
      (if String.eqb flags EmptyString then
         modify (fun c => set_maildir_ (Maildir.move_to_new (maildir_ c)) c)
       else
         BOOST_LOG_SEV Log.DEBUG [Txt "Using maildir flags: "; Txt flags];;
         modify (fun c =>
                   set_maildir_ (Maildir.move_to_cur flags (maildir_ c)) c));;
      modify (set_full_body_ false);;
      modify (fun c =>
                set_fetched_messages_ ((fetched_messages_ c + 1) mod 2 ^ 64) c)
    else skip
  else skip.

(** [flags_.push_back(ch)] *)
Definition push_back (ch : ascii) (str : string) : string :=
  str +:+ String ch EmptyString.

(** [void Client::imap_flag(Flag flag)] *)
Definition imap_flag (flag : Flag.t) : M unit :=
  match flag with
  | Flag.ANSWERED => modify (fun c => set_flags_ (push_back "R" (flags_ c)) c)
  | Flag.SEEN => modify (fun c => set_flags_ (push_back "S" (flags_ c)) c)
  | Flag.FLAGGED => modify (fun c => set_flags_ (push_back "F" (flags_ c)) c)
  | Flag.DRAFT => modify (fun c => set_flags_ (push_back "D" (flags_ c)) c)
  | Flag.RECENT | Flag.DELETED | Flag.FIRST_ | Flag.LAST_ => skip
  end.

(** [void Client::imap_uid(uint32_t number)] *)
Definition imap_uid (number : Z) : M unit :=
  st ← gets state_;
  if bool_decide (st = State.FETCHING) then
    BOOST_LOG_SEV Log.DEBUG [Txt "UID: "; Num number];;
    modify (fun c => set_uids_ (Range_Set.push number (uids_ c)) c)
  else skip.

(** *** The lexer *)

(** What the lexer does with a chunk of input: it calls back into the
    client, and between the calls it leaves text in the buffers it was
    constructed with ([tag_buffer_], and the target of
    [buffer_proxy_]). *)
Inductive Callback :=
| Tag_buffer (tag : string)
| Proxy_buffer (text : string)
| Status_code_capability_begin
| Capability_begin
| Capability_ (capability : Capability.t)
| Tagged_status_end (c : Status.t)
| Data_exists (number : Z)
| Data_recent (number : Z)
| Status_code_uidvalidity (n : Z)
| Data_fetch_begin (number : Z)
| Data_fetch_end
| Section_empty
| Body_section_inner
| Body_section_end
| Flag_ (flag : Flag.t)
| Uid (number : Z).

(** The lexer leaves [text] in the target of the proxy. *)
Definition proxy_write (text : string) : M unit :=
  p ← gets buffer_proxy_;
  match p with
  | Buffer.To_buffer => modify (set_buffer_ text)
  | Buffer.To_file_buffer =>
      modify (fun c =>
                set_file_buffer_
                  (Buffer.mk (Buffer.name (file_buffer_ c))
                             (Buffer.is_open (file_buffer_ c)) text) c)
  end.

Definition callback (fuel : nat) (cb : Callback) : M unit :=
  match cb with
  | Tag_buffer tag => modify (set_tag_buffer_ tag)
  | Proxy_buffer text => proxy_write text
  | Status_code_capability_begin => imap_status_code_capability_begin
  | Capability_begin => imap_capability_begin
  | Capability_ c => imap_capability c
  | Tagged_status_end c => imap_tagged_status_end fuel c
  | Data_exists n => imap_data_exists n
  | Data_recent n => imap_data_recent n
  | Status_code_uidvalidity n => imap_status_code_uidvalidity n
  | Data_fetch_begin n => imap_data_fetch_begin n
  | Data_fetch_end => imap_data_fetch_end
  | Section_empty => imap_section_empty
  | Body_section_inner => imap_body_section_inner
  | Body_section_end => imap_body_section_end
  | Flag_ f => imap_flag f
  | Uid n => imap_uid n
  end.

(** [lexer_.read(begin, end)], given what the lexer makes of the
    chunk. *)
Fixpoint lexer_read (fuel : nat) (cbs : list Callback) : M unit :=
  match cbs with
  | [] => skip
  | cb :: cbs' => callback fuel cb;; lexer_read fuel cbs'
  end.

(** *** Connecting, reading, and the login timer *)

(** [void Client::do_read()]; the completion handler is
    [do_read_handler]. *)
Definition do_read : M unit := emit Ev_async_read_some.

(** The handler given to [async_read_some]; [cbs] is what the lexer
    makes of the bytes that arrived. *)
Definition do_read_handler (fuel : nat) (ec : Error.error_code)
    (cbs : list Callback) : M unit :=
  if Error.is_set ec then
    st ← gets state_;
    if bool_decide (st = State.LOGGED_OUT)
       && ((bool_decide (Error.category ec = Error.ssl_category)
            && (Error.value ec
                =? Error.ERR_PACK Error.ERR_LIB_SSL 0 Error.SSL_R_SHORT_READ))
           || (bool_decide (Error.category ec = Error.misc_category)
               && (Error.value ec =? Error.eof)))
    then skip
    else
      BOOST_LOG_SEV Log.DEBUG [Txt "do_read() fail: "; Ec_message ec];;
      THROW_ERROR ec
  else
    lexer_read fuel cbs;;
    st ← gets state_;
    if negb (bool_decide (st = State.LOGGED_OUT)) then do_read else skip.

(** [void Client::do_pre_login()]; the completion handler is
    [do_pre_login_handler]. *)
Definition do_pre_login : M unit :=
  o ← gets opts_;
  emit (Ev_login_timer_expires_from_now (greeting_wait o));;
  emit Ev_login_timer_async_wait.

(** The handler given to [login_timer_.async_wait]. *)
Definition do_pre_login_handler (fuel : nat) (ec : Error.error_code)
  : M unit :=
  if Error.is_set ec then THROW_ERROR ec
  else
    BOOST_LOG [Txt "Point after first possibly occured read"];;
    do_capabilities (command fuel).

(** [void Client::do_handshake()]; the completion handler is
    [do_handshake_handler]. *)
Definition do_handshake : M unit :=
  o ← gets opts_;
  (if use_ssl o then BOOST_LOG [Txt "Cipher list: "; Txt (cipher o)]
   else skip);;
  BOOST_LOG [Txt "Shaking hands with "; Txt (host o); Txt "..."];;
  emit Ev_async_handshake.

(** The handler given to [async_handshake]. *)
Definition do_handshake_handler (ec : Error.error_code) : M unit :=
  if Error.is_set ec then THROW_ERROR ec
  else
    BOOST_LOG [Txt "Handshake completed."];;
    modify (set_state_ State.ESTABLISHED);;
    do_read;;
    do_pre_login.

(** [void Client::do_connect(iterator)]; the completion handler is
    [do_connect_handler]. *)
Definition do_connect : M unit :=
  o ← gets opts_;
  BOOST_LOG [Txt "Connecting to "; Txt (host o); Txt "..."];;
  emit Ev_async_connect.

(** The handler given to [async_connect]. *)
Definition do_connect_handler (ec : Error.error_code) : M unit :=
  if Error.is_set ec then THROW_ERROR ec
  else
    o ← gets opts_;
    BOOST_LOG [Txt (host o); Txt " connected."];;
    do_handshake.

(** [void Client::do_resolve()]; the completion handler is
    [do_resolve_handler]. *)
Definition do_resolve : M unit :=
  o ← gets opts_;
  BOOST_LOG [Txt "Resolving "; Txt (host o); Txt "..."];;
  emit Ev_async_resolve.

(** The handler given to [async_resolve]. *)
Definition do_resolve_handler (ec : Error.error_code) : M unit :=
  if Error.is_set ec then THROW_ERROR ec
  else
    o ← gets opts_;
    BOOST_LOG [Txt (host o); Txt " resolved."];;
    do_connect.

(** Modelled from the spec: the member initialisers of client.h are outside
    the sources verified here; a session starts in [DISCONNECTED] with
    empty registry, capability set and buffers, and counters at zero;
    the first tag is number 1 (section 8). *)
Definition members (opts : Options) : Client :=
  mk opts State.DISCONNECTED ∅ ∅ 1%N None EmptyString EmptyString
     Buffer.To_buffer Buffer.closed Maildir.empty EmptyString false 0
     0 0 0 Range_Set.empty 0 0 0 [].

(** [Client::Client(opts, net_client, lg)], the constructor body. *)
Definition Client_ (opts : Options) : Result unit * Client :=
  (modify (set_buffer_proxy_ Buffer.To_buffer);;
   do_signal_wait;;
   do_resolve) (members opts).

(** *** Reading a trace *)

(** The commands pushed to the transport, oldest first. *)
Definition written (tr : list Event) : list (option Writer.Command) :=
  omap (fun e => match e with Ev_push_write c => Some c | _ => None end) tr.

(** The requests among them. *)
Definition requests (tr : list Event) : list Writer.Request :=
  omap (fun e => match e with
                 | Ev_push_write (Some c) => Some (Writer.request c)
                 | _ => None
                 end) tr.

(** The events a call adds to the trace of [c]. *)
Definition events_of {A} (m : M A) (c : Client) : list Event :=
  drop (length (trace_ c)) (trace_ (snd (m c))).

End Copy.

(** ** Vocabulary of the specification *)

(** Notions the statements below use that are not functions of the
    program. *)
Module Spec.

(** Case-insensitive equality of two strings, the comparison asked of
    the pinned and the computed fingerprint. *)
Definition iequals (a b : string) : bool :=
  String.eqb (SSL.to_upper_copy a) (SSL.to_upper_copy b).

(** The TLS short read: the SSL category with the packed code of
    library SSL (20) and reason SHORT_READ (219). *)
Definition TLS_SHORT_READ : Error.error_code :=
  Error.mk Error.ssl_category 335544539.

(** The end of file of the transport. *)
Definition transport_EOF : Error.error_code :=
  Error.mk Error.misc_category 2.


(** The cancellation of the signal wait. *)
Definition signal_operation_canceled : Error.error_code :=
  Error.mk Error.system_category 125.

Definition success : Error.error_code := Error.mk Error.system_category 0.

(** The maildir letter of an IMAP flag: Answered R, Seen S, Flagged F,
    Draft D, nothing for the others. *)
Definition maildir_letter (f : Flag.t) : string :=
  match f with
  | Flag.ANSWERED => "R"
  | Flag.SEEN => "S"
  | Flag.FLAGGED => "F"
  | Flag.DRAFT => "D"
  | _ => ""
  end.

(** One letter per flag, in the order the flags arrived. *)
Fixpoint maildir_suffix (fs : list Flag.t) : string :=
  match fs with
  | [] => EmptyString
  | f :: fs' => maildir_letter f +:+ maildir_suffix fs'
  end.

(** The flags among the callbacks of the lexer, in order. *)
Definition flags_of (cbs : list Copy.Callback) : list Flag.t :=
  omap (fun cb => match cb with Copy.Flag_ f => Some f | _ => None end) cbs.

(** The UIDs among the callbacks of the lexer. *)
Definition uids_of (cbs : list Copy.Callback) : list Z :=
  omap (fun cb => match cb with Copy.Uid n => Some n | _ => None end) cbs.

(** Callbacks that can arrive between the begin of a FETCH response and
    the end of its body: all but the begin of another FETCH response
    and a tagged status. *)
Definition within_fetch (cb : Copy.Callback) : bool :=
  match cb with
  | Copy.Data_fetch_begin _ | Copy.Tagged_status_end _ => false
  | _ => true
  end.

(** A store command as the specification talks about it: with or
    without the UID prefix, over a sequence set, with flags, a mode and
    the silent marker. *)
Record Store := mk_store {
  uid_prefix : bool;
  set : list (Z * Z);
  flags : list Flag.t;
  mode : Writer.Store_Mode;
  silent : bool
}.

(** The only store the writer offers is [uid_store]. *)
Definition as_store (r : Writer.Request) : option Store :=
  match r with
  | Writer.uid_store set flags mode silent =>
      Some (mk_store true set flags mode silent)
  | _ => None
  end.

(** "STORE (or UID STORE when UIDPLUS) with +FLAGS.SILENT (\Deleted)
    over the set of collected UIDs". *)
Definition add_deleted_silently (c : Copy.Client) : Store :=
  mk_store (bool_decide (Capability.UIDPLUS ∈ Copy.capabilities_ c))
           (Range_Set.copy (Copy.uids_ c)) [Flag.DELETED] Writer.ADD true.

(** The sequence set of a STORE or EXPUNGE request. *)
Definition sequence_set (r : Writer.Request) : list (Z * Z) :=
  match r with
  | Writer.uid_store set _ _ _ => set
  | Writer.uid_expunge set => set
  | _ => []
  end.

(** What the first signal makes the client do. *)
Definition first_signal_events (signal_number : Z) : list Copy.Event :=
  [ Copy.Ev_log (Log.mk (Some Log.ERROR)
                         [Txt "Got signal: "; Num signal_number]);
    Copy.Ev_signals_async_wait;
    Copy.Ev_log (Log.mk (Some Log.DEBUG) [Txt "do_quit()"]);
    Copy.Ev_cancel;
    Copy.Ev_async_shutdown ].

(** Every UID in the sequence set of a request satisfies [P]. *)
Definition uids_from (P : Z -> Prop) (r : Writer.Request) : Prop :=
  forall u : Z, Range_Set.mem u (sequence_set r) -> P u.

(** The UIDs the client holds, in [uids_] and in a command already
    written to [cmd_], all satisfy [P]. *)
Definition holds_uids_from (P : Z -> Prop) (c : Copy.Client) : Prop :=
  (forall u : Z, Range_Set.mem u (Copy.uids_ c) -> P u)
  /\ (forall cmd : Writer.Command,
        Copy.cmd_ c = Some cmd -> uids_from P (Writer.request cmd)).

(** From [c] to [c'] the trace has grown, the requests it has grown by
    only carry UIDs that satisfy [P], and so does what [c'] holds. *)
Definition carries_uids_from (P : Z -> Prop) (c c' : Copy.Client) : Prop :=
  holds_uids_from P c'
  /\ exists evs : list Copy.Event,
       Copy.trace_ c' = Copy.trace_ c ++ evs
       /\ Forall (uids_from P) (Copy.requests evs).

End Spec.

(** ** Fixtures *)

(** Concrete collaborators and sessions, on which the statements below
    are evaluated. *)
Module Fixture.

(** A certificate is its digest and its subject line; a context is the
    current certificate and the error the store holds.  The default
    verifier accepts what was preverified. *)
Definition openssl : SSL.OpenSSL := {|
  SSL.X509 := list byte * string;
  SSL.verify_context := (list byte * string) * Z;
  SSL.X509_STORE_CTX_get_current_cert := fst;
  SSL.X509_digest := fst;
  SSL.X509_subject := snd;
  SSL.X509_STORE_CTX_get_error := snd;
  SSL.X509_verify_cert_error_string := fun _ => "certificate rejected";
  SSL.rfc2818_verification := fun _ preverified _ => preverified
|}.

(** A self-signed leaf with digest AB CD, which PKI rejects (error 18),
    and an intermediate. *)
Definition leaf : @SSL.verify_context openssl :=
  (([xab; xcd]%byte, "/CN=imap.example.org"), 18).
Definition issuer : @SSL.verify_context openssl :=
  (([x01; x02]%byte, "/CN=Example CA"), 0).

(** Verifiers pinned to the leaf (in lower case) and to another
    certificate. *)
Definition pinned : @SSL.Verification openssl :=
  SSL.Verification_ "imap.example.org" "abcd".
Definition pinned_other : @SSL.Verification openssl :=
  SSL.Verification_ "imap.example.org" "ABCE".

(** A session that has fetched the messages with UIDs 3, 5 and 7 from
    a server that advertises UIDPLUS, with deletion switched on; the
    tagged OK of the FETCH has just set the state. *)
Definition opts : Copy.Options :=
  Copy.mk_options "imap.example.org" "juser" "secret" "INBOX" "/var/mail/juser"
                  "HIGH" true 100 true.

Definition uids_357 : Range_Set.t :=
  Range_Set.push 7 (Range_Set.push 5 (Range_Set.push 3 Range_Set.empty)).

Definition fetched_no_uidplus : Copy.Client :=
  Copy.set_state_ State.FETCHED
    (Copy.set_uids_ uids_357
       (Copy.set_tags_ 5%N (Copy.members opts))).

Definition fetched : Copy.Client :=
  Copy.set_capabilities_ {[Capability.UIDPLUS]} fetched_no_uidplus.

(** A session that has read the greeting's capabilities, with and
    without LOGINDISABLED among them. *)
Definition greeted : Copy.Client :=
  Copy.set_state_ State.GOT_INITIAL_CAPABILITIES
    (Copy.set_capabilities_ {[Capability.Other 0]} (Copy.members opts)).

Definition greeted_disabled : Copy.Client :=
  Copy.set_capabilities_ {[Capability.LOGINDISABLED]} greeted.

(** A session waiting for the tagged status of the command with tag
    A1, which [do_select] registered. *)
Definition selecting : Copy.Client :=
  Copy.set_tag_buffer_ "A1"
    (Copy.set_tag_to_state_ {["A1" := State.SELECTED_MAILBOX]}
       (Copy.set_state_ State.GOT_CAPABILITIES (Copy.members opts))).

(** A session after LOGOUT was acknowledged. *)
Definition logged_out : Copy.Client :=
  Copy.set_state_ State.LOGGED_OUT (Copy.members opts).

(** A session in the middle of the FETCH, and what the lexer makes of
    one message: UID 3, flags Seen, Recent and Answered, and a full
    body. *)
Definition fetching : Copy.Client :=
  Copy.set_state_ State.FETCHING (Copy.members opts).

Definition message_3 : list Copy.Callback :=
  [ Copy.Uid 3; Copy.Flag_ Flag.SEEN; Copy.Flag_ Flag.RECENT;
    Copy.Flag_ Flag.ANSWERED; Copy.Section_empty; Copy.Body_section_inner;
    Copy.Proxy_buffer "BODY1" ].

End Fixture.

(** ** Whole chains and whole sessions *)

(** Notions over several invocations of the verifier and over runs of the
    client, used by the statements of the last part. *)
Module Session.

(** The verifier object called on one certificate of the chain after the
    other, as the handshake does: the answers, and the verifier after the
    last call. *)
Fixpoint verify_chain `{SSL.OpenSSL}
    (chain : list (bool * SSL.verify_context)) (v : SSL.Verification)
  : list bool * SSL.Verification :=
  match chain with
  | [] => ([], v)
  | (preverified, ctx) :: rest =>
      let '(r, v1) := SSL.call preverified ctx v in
      let '(rs, v2) := verify_chain rest v1 in
      (r :: rs, v2)
  end.

(** A record logged at level FATAL by the verifier. *)
Definition is_fatal `{SSL.OpenSSL} (e : SSL.Event) : bool :=
  match e with
  | SSL.Ev_log (Log.mk (Some Log.FATAL) _) => true
  | _ => false
  end.

(** A callback of the lexer other than the tagged status. *)
Definition untagged (cb : Copy.Callback) : bool :=
  match cb with
  | Copy.Tagged_status_end _ => false
  | _ => true
  end.

(** The calls on the transport, the signal set and the timers in a
    trace: everything but the log records. *)
Definition operations (tr : list Copy.Event) : list Copy.Event :=
  List.filter (fun e => match e with Copy.Ev_log _ => false | _ => true end)
              tr.

(** The registry holds no tag, or one tag, which leads to a state later
    than the current one. *)
Definition one_pending (c : Copy.Client) : Prop :=
  Copy.tag_to_state_ c = ∅
  \/ exists (tag : string) (next : State.t),
       Copy.tag_to_state_ c = {[tag := next]}
       /\ State.to_unsigned (Copy.state_ c) < State.to_unsigned next.

(** The errors of a shutdown that come with an orderly closure: the TLS
    short read, and an SSL error whose reason is
    DECRYPTION_FAILED_OR_BAD_RECORD_MAC (281). *)
Definition benign_shutdown (ec : Error.error_code) : Prop :=
  ec = Spec.TLS_SHORT_READ
  \/ (Error.category ec = Error.ssl_category
      /\ Error.ERR_GET_REASON (Error.value ec) = 281).

(** From [c] to [c'] the state machine has not moved: same state,
    registry, tag generator, command buffer and options, and the trace
    has grown by log records only. *)
Definition same_session (c c' : Copy.Client) : Prop :=
  Copy.state_ c' = Copy.state_ c
  /\ Copy.tag_to_state_ c' = Copy.tag_to_state_ c
  /\ Copy.tags_ c' = Copy.tags_ c
  /\ Copy.cmd_ c' = Copy.cmd_ c
  /\ Copy.opts_ c' = Copy.opts_ c
  /\ exists evs : list Copy.Event,
       Copy.trace_ c' = Copy.trace_ c ++ evs /\ operations evs = [].

(** From [c] to [c'] nothing was ingested: same UIDs, maildir, message
    count and proxy target. *)
Definition same_mailbox (c c' : Copy.Client) : Prop :=
  Copy.uids_ c' = Copy.uids_ c
  /\ Copy.maildir_ c' = Copy.maildir_ c
  /\ Copy.fetched_messages_ c' = Copy.fetched_messages_ c
  /\ Copy.buffer_proxy_ c' = Copy.buffer_proxy_ c.

(** From [c] to [c'] the working set of the message in flight and the
    maildir are the same. *)
Definition same_ingest (c c' : Copy.Client) : Prop :=
  Copy.flags_ c' = Copy.flags_ c
  /\ Copy.maildir_ c' = Copy.maildir_ c
  /\ Copy.fetched_messages_ c' = Copy.fetched_messages_ c
  /\ Copy.buffer_proxy_ c' = Copy.buffer_proxy_ c
  /\ Copy.file_buffer_ c' = Copy.file_buffer_ c.

(** A string of maildir flag letters: R, S, F and D only. *)
Fixpoint only_RSFD (s : string) : bool :=
  match s with
  | EmptyString => true
  | String ch s' =>
      (Ascii.eqb ch "R" || Ascii.eqb ch "S" || Ascii.eqb ch "F"
       || Ascii.eqb ch "D") && only_RSFD s'
  end.

(** A delivery to new/, or to cur/ with at least one flag letter and
    nothing but flag letters. *)
Definition well_flagged (d : Maildir.Delivery) : Prop :=
  match d with
  | Maildir.New _ => True
  | Maildir.Cur _ flags => flags <> EmptyString /\ only_RSFD flags = true
  end.

(** From [c] to [c'] the maildir has delivered some more files, all well
    flagged, and the message counter has gone up by their number (as a
    64-bit counter does). *)
Definition delivered_and_counted (c c' : Copy.Client) : Prop :=
  exists ds : list Maildir.Delivery,
    Maildir.delivered (Copy.maildir_ c')
      = Maildir.delivered (Copy.maildir_ c) ++ ds
    /\ Forall well_flagged ds
    /\ Copy.fetched_messages_ c' mod 2 ^ 64
       = (Copy.fetched_messages_ c + Z.of_nat (length ds)) mod 2 ^ 64.

(** The proxy points at the file buffer only while its file is open. *)
Definition proxy_on_open_file (c : Copy.Client) : Prop :=
  Copy.buffer_proxy_ c = Buffer.To_file_buffer ->
  Buffer.is_open (Copy.file_buffer_ c) = true.

End Session.

(** Sessions at further points of the protocol. *)
Module Scenario.

(** After the handshake: no capabilities yet, or one from the greeting. *)
Definition established : Copy.Client :=
  Copy.set_state_ State.ESTABLISHED (Copy.members Fixture.opts).

Definition established_greeted : Copy.Client :=
  Copy.set_capabilities_ {[Capability.Other 0]} established.

(** After SELECT was acknowledged, with an empty and with a filled
    mailbox. *)
Definition selected_empty : Copy.Client :=
  Copy.set_state_ State.SELECTED_MAILBOX (Copy.members Fixture.opts).

Definition selected : Copy.Client := Copy.set_exists_ 2 selected_empty.

(** After FETCH was acknowledged, with deletion switched off. *)
Definition fetched_keep : Copy.Client :=
  Copy.mk (Copy.mk_options "imap.example.org" "juser" "secret" "INBOX"
                           "/var/mail/juser" "HIGH" true 100 false)
          State.FETCHED ∅ ∅ 5%N None EmptyString EmptyString
          Buffer.To_buffer Buffer.closed Maildir.empty EmptyString false 2
          2 0 42 Fixture.uids_357 0 0 0 [].

(** After STORE was acknowledged. *)
Definition stored : Copy.Client :=
  Copy.set_state_ State.STORED Fixture.fetched.

(** Waiting for the tagged status of LOGOUT, which carries tag A6. *)
Definition logging_out : Copy.Client :=
  Copy.set_tag_to_state_ {["A6" := State.LOGGED_OUT]}
    (Copy.set_state_ State.LOGGING_OUT (Copy.members Fixture.opts)).

(** An SSL error of library 20 with reason 281. *)
Definition bad_record_mac : Error.error_code :=
  Error.mk Error.ssl_category (Error.ERR_PACK 20 0 281).

(** Connection reset by peer. *)
Definition connection_reset : Error.error_code :=
  Error.mk Error.system_category 104.

(** After LOGIN was acknowledged, without and with capabilities from its
    status code. *)
Definition logged_in : Copy.Client :=
  Copy.set_state_ State.LOGGED_IN (Copy.members Fixture.opts).

Definition logged_in_capable : Copy.Client :=
  Copy.set_capabilities_ {[Capability.UIDPLUS]} logged_in.

End Scenario.

(** ** The definitions at work *)

Example hex_leaf : SSL.hex [xab; xcd; x0f]%byte = "ABCD0F".
Proof. reflexivity. Qed.

Example to_upper_copy_mixed : SSL.to_upper_copy "a1:Bz{" = "A1:BZ{".
Proof. reflexivity. Qed.

Example ERR_PACK_SHORT_READ :
  Error.mk Error.ssl_category
           (Error.ERR_PACK Error.ERR_LIB_SSL 0 Error.SSL_R_SHORT_READ)
  = Spec.TLS_SHORT_READ.
Proof. reflexivity. Qed.

Example tag_of_12 : Writer.tag_of 12 = "A12".
Proof. reflexivity. Qed.

Example uids_357_copy :
  Range_Set.copy Fixture.uids_357 = [(3, 3); (5, 5); (7, 7)].
Proof. reflexivity. Qed.

Example uids_run_copy :
  Range_Set.copy (Range_Set.push 9 (Range_Set.push 5 (Range_Set.push 4
                    (Range_Set.push 3 Range_Set.empty))))
  = [(3, 5); (9, 9)].
Proof. reflexivity. Qed.

Example State_incr_wraps :
  State.incr (State.Unnamed (2 ^ 32 - 1)) = State.FIRST_.
Proof. reflexivity. Qed.

(** The constructor arms the signal wait and starts resolving. *)
Example Client_starts :
  fst (Copy.Client_ Fixture.opts) = Copy.Ok ()
  /\ Copy.state_ (snd (Copy.Client_ Fixture.opts)) = State.DISCONNECTED
  /\ Copy.trace_ (snd (Copy.Client_ Fixture.opts))
     = [ Copy.Ev_signals_async_wait;
         Copy.Ev_log (Log.mk None [Txt "Resolving "; Txt "imap.example.org";
                                   Txt "..."]);
         Copy.Ev_async_resolve ].
Proof. repeat split. Qed.

(** ** Properties of the certificate verifier *)

Lemma toupper_hex_digit (n : N) :
  SSL.toupper (SSL.hex_digit n) = SSL.hex_digit n.
Proof.
  destruct n as [|p]; [reflexivity|].
  do 4 (try destruct p as [p|p|]); reflexivity.
Qed.

(** What [boost::algorithm::hex] writes is already upper case. *)
Lemma to_upper_copy_hex (bs : list byte) :
  SSL.to_upper_copy (SSL.hex bs) = SSL.hex bs.
Proof.
  induction bs as [|b bs IH]; [reflexivity|].
  cbn [SSL.hex SSL.to_upper_copy].
  by rewrite !toupper_hex_digit, IH.
Qed.

Lemma iequals_hex (pinned : string) (bs : list byte) :
  Spec.iequals pinned (SSL.hex bs)
  = String.eqb (SSL.to_upper_copy pinned) (SSL.hex bs).
Proof. unfold Spec.iequals. by rewrite to_upper_copy_hex. Qed.

(** A freshly constructed verifier will next work at position 1, has no
    match cached, and holds the pin in upper case. *)
Lemma Verification_fresh `{SSL.OpenSSL} (hostname fingerprint : string) :
  let v := SSL.Verification_ hostname fingerprint in
  SSL.position v = 1 /\ SSL.result_ v = false
  /\ SSL.fingerprint_ v = SSL.to_upper_copy fingerprint.
Proof. by cbn. Qed.

Ltac members :=
  cbn [fst snd SSL.log SSL.set_pos_ SSL.set_result_ SSL.default_ SSL.pos_
       SSL.result_ SSL.fingerprint_ SSL.hostname_ SSL.trace_].

(** The pinned branch of [operator()], spelled out. *)
Lemma call_pinned_leaf `{SSL.OpenSSL}
    (v : SSL.Verification) (preverified : bool) (ctx : SSL.verify_context) :
  String.eqb (SSL.fingerprint_ v) "" = false ->
  SSL.position v = 1 ->
  SSL.result_ v = false ->
  let r := String.eqb (SSL.fingerprint_ v) (SSL.fp_str ctx) in
  let v' := snd (SSL.call preverified ctx v) in
  fst (SSL.call preverified ctx v) = r
  /\ SSL.result_ v' = r /\ SSL.pos_ v' = 1
  /\ SSL.fingerprint_ v' = SSL.fingerprint_ v
  /\ Forall (fun e => SSL.is_default e = false)
            (SSL.events_of preverified ctx v).
Proof.
  intros Hne Hpos Hres.
  unfold SSL.events_of, SSL.call, SSL.fp_str. unfold SSL.position in Hpos.
  members. rewrite Hres, Hne, Hpos. cbn [negb andb Z.eqb Pos.eqb].
  set (fp := SSL.hex _).
  destruct (String.eqb (SSL.fingerprint_ v) fp) eqn:E; cbn;
    (split; [done|split; [done|split; [done|split; [done|]]]]);
    rewrite <- ?app_assoc, drop_app_length; repeat constructor.
Qed.

(** C1.  An invocation at chain position 1 of a verifier that holds a
    non-empty pin (the configured fingerprint, upper-cased by the
    constructor) and has no match cached, as is the case before the
    first invocation: the result is the case-insensitive comparison of
    the configured fingerprint with the SHA-1 fingerprint of the
    presented certificate, whatever [preverified] is: true when they
    are equal, false when they differ; and the default verifier is not
    called in that invocation. *)
Theorem pinned_fingerprint_decides_position_1 `{SSL.OpenSSL}
    (v : SSL.Verification) (configured : string)
    (preverified : bool) (ctx : SSL.verify_context) :
  SSL.fingerprint_ v = SSL.to_upper_copy configured ->
  String.eqb (SSL.fingerprint_ v) "" = false ->
  SSL.position v = 1 ->
  SSL.result_ v = false ->
  fst (SSL.call preverified ctx v)
    = Spec.iequals configured (SSL.fp_str ctx)
  /\ Forall (fun e => SSL.is_default e = false)
            (SSL.events_of preverified ctx v).
Proof.
  intros Hpin Hne Hpos Hres.
  destruct (call_pinned_leaf v preverified ctx Hne Hpos Hres)
    as (Hr & _ & _ & _ & Hev).
  split; [|exact Hev].
  unfold SSL.fp_str in *. by rewrite iequals_hex, <- Hpin.
Qed.

Lemma pinned_fingerprint_decides_position_1_witness :
  fst (SSL.call false Fixture.leaf Fixture.pinned) = true
  /\ Forall (fun e => SSL.is_default e = false)
            (SSL.events_of false Fixture.leaf Fixture.pinned).
Proof.
  exact (pinned_fingerprint_decides_position_1
           Fixture.pinned "abcd" false Fixture.leaf
           eq_refl eq_refl eq_refl eq_refl).
Defined.

(** A mismatch at position 1 leaves no result cached, and the next
    invocation works at position 2. *)
Lemma mismatch_caches_false `{SSL.OpenSSL}
    (v : SSL.Verification) (preverified : bool) (ctx : SSL.verify_context) :
  String.eqb (SSL.fingerprint_ v) "" = false ->
  SSL.position v = 1 ->
  SSL.result_ v = false ->
  String.eqb (SSL.fingerprint_ v) (SSL.fp_str ctx) = false ->
  let v' := snd (SSL.call preverified ctx v) in
  SSL.result_ v' = false /\ SSL.position v' = 2.
Proof.
  intros Hne Hpos Hres Hfp.
  destruct (call_pinned_leaf v preverified ctx Hne Hpos Hres)
    as (_ & Hr & Hp & _).
  cbn zeta in *. unfold SSL.position. rewrite Hr, Hp, Hfp. by split.
Qed.

(** With no match cached, an invocation at a position other than 1
    asks the default verifier and returns its answer. *)
Lemma call_falls_through `{SSL.OpenSSL}
    (v : SSL.Verification) (preverified : bool) (ctx : SSL.verify_context) :
  SSL.result_ v = false -> SSL.position v <> 1 ->
  fst (SSL.call preverified ctx v)
    = SSL.rfc2818_verification (SSL.hostname_ v) preverified ctx
  /\ In (SSL.Ev_default preverified ctx) (SSL.events_of preverified ctx v)
  /\ SSL.result_ (snd (SSL.call preverified ctx v)) = false.
Proof.
  intros Hres Hpos. unfold SSL.position in Hpos.
  unfold SSL.events_of, SSL.call. members. rewrite Hres.
  destruct (Z.eqb_spec ((SSL.pos_ v + 1) mod 2 ^ 32) 1) as [|_]; [done|].
  rewrite andb_false_r.
  destruct (SSL.rfc2818_verification _ _ _); cbn [negb]; members;
    (split; [done|split; [|done]]);
    rewrite <- ?app_assoc, drop_app_length; cbn; tauto.
Qed.

(** The members an invocation never writes. *)
Lemma call_keeps_hostname `{SSL.OpenSSL}
    (v : SSL.Verification) (preverified : bool) (ctx : SSL.verify_context) :
  SSL.hostname_ (snd (SSL.call preverified ctx v)) = SSL.hostname_ v.
Proof.
  unfold SSL.call. members.
  repeat match goal with
         | |- context [if ?b then _ else _] => destruct b; members
         end; reflexivity.
Qed.

(** C10.  Only a positive match is served from the cache.  With [true]
    cached, an invocation returns [true] and does not call the default
    verifier.  With [false] in [result_], an invocation at any position
    other than 1 returns what the default verifier answers for this
    [preverified] and this context, after calling it, and leaves [false]
    in [result_].  That is the state a mismatch at position 1 leaves: the
    invocation that follows one works at position 2 and returns the
    answer of the default verifier. *)
Theorem only_positive_match_short_circuits `{SSL.OpenSSL}
    (v : SSL.Verification) (preverified : bool) (ctx : SSL.verify_context) :
  (SSL.result_ v = true ->
     fst (SSL.call preverified ctx v) = true
     /\ Forall (fun e => SSL.is_default e = false)
               (SSL.events_of preverified ctx v))
  /\ (SSL.result_ v = false -> SSL.position v <> 1 ->
        fst (SSL.call preverified ctx v)
          = SSL.rfc2818_verification (SSL.hostname_ v) preverified ctx
        /\ In (SSL.Ev_default preverified ctx)
              (SSL.events_of preverified ctx v)
        /\ SSL.result_ (snd (SSL.call preverified ctx v)) = false)
  /\ (forall (preverified' : bool) (ctx' : SSL.verify_context),
        String.eqb (SSL.fingerprint_ v) "" = false ->
        SSL.position v = 1 ->
        SSL.result_ v = false ->
        String.eqb (SSL.fingerprint_ v) (SSL.fp_str ctx) = false ->
        let v' := snd (SSL.call preverified ctx v) in
        SSL.position v' = 2
        /\ fst (SSL.call preverified' ctx' v')
           = SSL.rfc2818_verification (SSL.hostname_ v) preverified' ctx'
        /\ In (SSL.Ev_default preverified' ctx')
              (SSL.events_of preverified' ctx' v')).
Proof.
  split; [|split].
  - intros Hres. unfold SSL.events_of, SSL.call. members. rewrite Hres.
    members. split; [done|].
    rewrite <- ?app_assoc, drop_app_length. repeat constructor.
  - apply call_falls_through.
  - intros preverified' ctx' Hne Hpos Hres Hfp. cbn zeta.
    destruct (mismatch_caches_false v preverified ctx Hne Hpos Hres Hfp)
      as (Hres' & Hpos').
    split; [exact Hpos'|].
    destruct (call_falls_through _ preverified' ctx' Hres') as (Hr & Hev & _).
    { rewrite Hpos'. discriminate. }
    rewrite call_keeps_hostname in Hr. by split.
Qed.

Lemma only_positive_match_short_circuits_witness :
  let v := snd (SSL.call false Fixture.leaf Fixture.pinned) in
  let w := snd (SSL.call false Fixture.leaf Fixture.pinned_other) in
  (fst (SSL.call false Fixture.issuer v) = true
   /\ Forall (fun e => SSL.is_default e = false)
             (SSL.events_of false Fixture.issuer v))
  /\ (fst (SSL.call true Fixture.issuer w) = true
      /\ In (SSL.Ev_default true Fixture.issuer)
            (SSL.events_of true Fixture.issuer w)
      /\ SSL.result_ (snd (SSL.call true Fixture.issuer w)) = false)
  /\ (SSL.position w = 2
      /\ fst (SSL.call false Fixture.issuer w) = false
      /\ In (SSL.Ev_default false Fixture.issuer)
            (SSL.events_of false Fixture.issuer w)).
Proof.
  split; [|split].
  - apply (proj1 (only_positive_match_short_circuits
                    (snd (SSL.call false Fixture.leaf Fixture.pinned))
                    false Fixture.issuer)).
    reflexivity.
  - apply (proj1 (proj2 (only_positive_match_short_circuits
                           (snd (SSL.call false Fixture.leaf
                                   Fixture.pinned_other))
                           true Fixture.issuer))).
    + reflexivity.
    + vm_compute. discriminate.
  - apply (proj2 (proj2 (only_positive_match_short_circuits
                           Fixture.pinned_other false Fixture.leaf))
             false Fixture.issuer); reflexivity.
Defined.

(** ** Properties of the copy client *)

Import Copy.

(** Unfolds the monad and the setters. *)
Ltac monad :=
  cbv beta iota zeta delta
    [mbind M_bind mret M_ret gets modify emit skip throw out_of_fuel
     THROW_MSG THROW_ERROR BOOST_LOG BOOST_LOG_SEV writer_ to_cmd register
     do_write do_signal_wait do_shutdown do_quit do_read];
  cbn [fst snd negb andb orb opts_ state_ capabilities_ tag_to_state_ tags_
       cmd_ tag_buffer_ buffer_ buffer_proxy_ file_buffer_ maildir_ flags_
       full_body_ fetched_messages_ exists_ recent_ uidvalidity_ uids_
       signaled_ fetch_bytes_start_ bytes_read_ trace_
       set_state_ set_capabilities_ set_tag_to_state_ set_tags_ set_cmd_
       set_tag_buffer_ set_buffer_ set_buffer_proxy_ set_file_buffer_
       set_maildir_ set_flags_ set_full_body_ set_fetched_messages_
       set_exists_ set_recent_ set_uidvalidity_ set_uids_ set_signaled_
       set_fetch_bytes_start_ set_bytes_read_ set_trace_].

(** Reads the events off a trace that grew by appending. *)
Ltac events := rewrite <- ?app_assoc, drop_app_length; cbn [app].

(** Unfolds the actions [command] chooses from. *)
Ltac actions :=
  unfold do_login, do_capabilities, do_select, do_fetch_or_logout, do_fetch,
    do_store_or_logout, do_store, do_uid_or_simple_expunge, do_uid_expunge,
    do_expunge, do_logout, has_uidplus, stop_fetch_timer, start_fetch_timer,
    resume_fetch_timer, print_fetch_stats;
  monad.

(** Splits on the condition of the first [if] of the goal. *)
Ltac split_if :=
  match goal with
  | |- context [if ?b then _ else _] => destruct b eqn:?; cbn [negb]; monad
  end.

Lemma State_incr_LOGGED_IN :
  State.incr State.LOGGED_IN = State.GOT_CAPABILITIES.
Proof. reflexivity. Qed.

(** Two units of fuel are enough for [command]: it never runs out, and
    more fuel changes nothing. *)
Lemma command_fuel (fuel : nat) (c : Client) :
  command (S (S fuel)) c = command 2 c
  /\ fst (command 2 c) <> Out_of_fuel.
Proof.
  cbn [command]. monad.
  destruct (state_ c) eqn:St; try (split; [reflexivity|discriminate]);
    actions; rewrite ?St; repeat split_if; try done.
  rewrite !St, State_incr_LOGGED_IN. by actions.
Qed.

(** In [GOT_INITIAL_CAPABILITIES], [command] is [do_login]. *)
Lemma command_GOT_INITIAL_CAPABILITIES (fuel : nat) (c : Client) :
  state_ c = State.GOT_INITIAL_CAPABILITIES ->
  command (S fuel) c = do_login c.
Proof. intros St. cbn [command]. monad. by rewrite St. Qed.

(** [do_login] when the server does not forbid it: the client that
    [do_write] is called on. *)
Lemma do_login_writes (c : Client) :
  Capability.LOGINDISABLED ∉ capabilities_ c ->
  exists c1 : Client,
    do_login c = do_write c1
    /\ capabilities_ c1 = ∅
    /\ cmd_ c1 = Some (Writer.mk (Writer.tag_of (tags_ c))
                         (Writer.login (username (opts_ c))
                                       (password (opts_ c))))
    /\ Forall (fun e => match e with Ev_log _ => True | _ => False end)
              (drop (length (trace_ c)) (trace_ c1)).
Proof.
  intros Hcap.
  exists (set_trace_ (removelast (trace_ (snd (do_login c))))
                     (snd (do_login c))).
  actions. rewrite bool_decide_eq_false_2 by done. monad.
  rewrite removelast_last. monad.
  split; [reflexivity|]. split; [reflexivity|]. split; [reflexivity|].
  events. by repeat constructor.
Qed.

(** C7.  When [command] dispatches the LOGIN step: with [LOGINDISABLED]
    in the capability set, [THROW_MSG] leaves the function, the session
    is as it was and nothing has been pushed to the transport; without
    it, the call returns, [do_write] runs on a client whose capability
    set is already empty and whose command buffer holds the LOGIN, and
    that LOGIN is the one command pushed. *)
Theorem login_step_checks_LOGINDISABLED (fuel : nat) (c : Client) :
  state_ c = State.GOT_INITIAL_CAPABILITIES ->
  (Capability.LOGINDISABLED ∈ capabilities_ c ->
     command (S fuel) c
       = (Throw (Throw_msg
                   [Txt "Cannot login because server has LOGINDISABLED"]), c)
     /\ written (events_of (command (S fuel)) c) = [])
  /\ (Capability.LOGINDISABLED ∉ capabilities_ c ->
      exists c1 : Client,
        command (S fuel) c = do_write c1
        /\ capabilities_ c1 = ∅
        /\ written (drop (length (trace_ c)) (trace_ c1)) = []
        /\ fst (command (S fuel) c) = Ok ()
        /\ capabilities_ (snd (command (S fuel) c)) = ∅
        /\ requests (events_of (command (S fuel)) c)
           = [Writer.login (username (opts_ c)) (password (opts_ c))]).
Proof.
  intros St. unfold events_of.
  rewrite (command_GOT_INITIAL_CAPABILITIES fuel c St). split.
  - intros Hcap. actions. rewrite bool_decide_eq_true_2 by done. monad.
    split; [reflexivity|]. by rewrite drop_all.
  - intros Hcap.
    destruct (do_login_writes c Hcap) as (c1 & Hrun & Hcaps & Hcmd & Hlogs).
    exists c1. split; [exact Hrun|]. split; [exact Hcaps|].
    split.
    { clear -Hlogs. induction Hlogs as [|e l He _ IH]; [done|].
      destruct e; try done. }
    actions. rewrite bool_decide_eq_false_2 by done. monad.
    split; [reflexivity|]. split; [reflexivity|]. by events.
Qed.

Lemma login_step_checks_LOGINDISABLED_witness :
  written (events_of (command 1) Fixture.greeted_disabled) = []
  /\ requests (events_of (command 1) Fixture.greeted)
     = [Writer.login "juser" "secret"].
Proof.
  split.
  - apply (proj1 (login_step_checks_LOGINDISABLED
                    0 Fixture.greeted_disabled eq_refl)).
    vm_compute. reflexivity.
  - destruct (proj2 (login_step_checks_LOGINDISABLED
                       0 Fixture.greeted eq_refl))
      as (c1 & _ & _ & _ & _ & _ & Hreq).
    + vm_compute. discriminate.
    + exact Hreq.
Defined.

(** C3.  The tagged status callback.  A status other than OK: [THROW_MSG]
    with the response buffer in the message.  OK with a tag the registry
    does not hold: [THROW_MSG] naming the tag.  OK with a registered tag:
    [command] runs (and, given two units of fuel, comes back) on a client
    whose state is the registered one and whose registry has lost the
    entry, so that the same tag arriving once more would be unknown. *)
Theorem tagged_status_end_consumes_tag
    (fuel : nat) (status : Status.t) (c : Client) :
  let got := Ev_log (Log.mk None [Txt "Got status "; Sts status;
                                  Txt " for tag "; Txt (tag_buffer_ c)]) in
  (status <> Status.OK ->
     imap_tagged_status_end fuel status c
     = (Throw (Throw_msg [Txt "Command failed: "; Sts status; Txt " - ";
                          Txt (buffer_ c)]),
        set_trace_ (trace_ c ++ [got]) c))
  /\ (status = Status.OK -> tag_to_state_ c !! tag_buffer_ c = None ->
      imap_tagged_status_end fuel status c
      = (Throw (Throw_msg [Txt "Got unknown tag: "; Txt (tag_buffer_ c)]),
         set_trace_ (trace_ c ++ [got]) c))
  /\ (forall next : State.t,
        status = Status.OK -> tag_to_state_ c !! tag_buffer_ c = Some next ->
        exists c1 : Client,
          imap_tagged_status_end fuel status c = command fuel c1
          /\ state_ c1 = next
          /\ tag_to_state_ c1 = delete (tag_buffer_ c) (tag_to_state_ c)
          /\ tag_to_state_ c1 !! tag_buffer_ c = None
          /\ written (drop (length (trace_ c)) (trace_ c1)) = []
          /\ (2 <= fuel -> fst (command fuel c1) <> Out_of_fuel)%nat).
Proof.
  cbn zeta. split; [|split].
  - intros Hst. unfold imap_tagged_status_end. monad.
    rewrite bool_decide_eq_false_2 by done. by monad.
  - intros -> Hlook. unfold imap_tagged_status_end. monad.
    rewrite bool_decide_eq_true_2 by done. monad.
    rewrite Hlook. by monad.
  - intros next -> Hlook. unfold imap_tagged_status_end. monad.
    rewrite bool_decide_eq_true_2 by done. monad.
    rewrite Hlook. monad. eexists. split; [reflexivity|]. monad.
    split; [reflexivity|]. split; [reflexivity|].
    split; [apply lookup_delete_eq|].
    split; [by events|].
    intros Hfuel. destruct fuel as [|[|fuel]]; [lia..|].
    rewrite (proj1 (command_fuel fuel _)). apply (command_fuel 0).
Qed.

Lemma tagged_status_end_consumes_tag_witness :
  fst (imap_tagged_status_end 2 Status.NO Fixture.selecting)
    = Throw (Throw_msg [Txt "Command failed: "; Sts Status.NO; Txt " - ";
                        Txt ""])
  /\ fst (imap_tagged_status_end 2 Status.OK
            (set_tag_buffer_ "A9" Fixture.selecting))
     = Throw (Throw_msg [Txt "Got unknown tag: "; Txt "A9"])
  /\ exists c1 : Client,
       imap_tagged_status_end 2 Status.OK Fixture.selecting = command 2 c1
       /\ state_ c1 = State.SELECTED_MAILBOX
       /\ tag_to_state_ c1 !! "A1" = None.
Proof.
  pose proof (tagged_status_end_consumes_tag 2 Status.NO Fixture.selecting)
    as (Hno & _ & _).
  pose proof (tagged_status_end_consumes_tag 2 Status.OK
                (set_tag_buffer_ "A9" Fixture.selecting)) as (_ & Hunk & _).
  pose proof (tagged_status_end_consumes_tag 2 Status.OK Fixture.selecting)
    as (_ & _ & Hok).
  split; [|split].
  - rewrite Hno; [reflexivity|discriminate].
  - rewrite Hunk; [reflexivity|reflexivity|]. vm_compute. reflexivity.
  - destruct (Hok State.SELECTED_MAILBOX) as (c1 & Hrun & Hst & _ & Hgone & _).
    + reflexivity.
    + vm_compute. reflexivity.
    + exists c1. by split; [|split].
Defined.

(** C5.  An error handed to the read handler.  In [LOGGED_OUT], the TLS
    short read and the transport's end of file are swallowed: the handler
    returns and leaves the client as it was, so that no read is enqueued
    and nothing is logged.  Any other error in [LOGGED_OUT], and any
    error in another state, leaves through [THROW_ERROR]. *)
Theorem read_error_benign_only_when_logged_out
    (fuel : nat) (ec : Error.error_code) (cbs : list Callback) (c : Client) :
  Error.is_set ec = true ->
  (state_ c = State.LOGGED_OUT ->
   ec = Spec.TLS_SHORT_READ \/ ec = Spec.transport_EOF ->
     do_read_handler fuel ec cbs c = (Ok (), c))
  /\ (state_ c = State.LOGGED_OUT ->
      ec <> Spec.TLS_SHORT_READ -> ec <> Spec.transport_EOF ->
        fst (do_read_handler fuel ec cbs c) = Throw (Throw_error ec))
  /\ (state_ c <> State.LOGGED_OUT ->
        fst (do_read_handler fuel ec cbs c) = Throw (Throw_error ec)).
Proof.
  intros Hset. unfold do_read_handler. rewrite Hset. monad.
  split; [|split].
  - intros St [-> | ->]; rewrite bool_decide_eq_true_2 by done; reflexivity.
  - intros St Hsr Heof. rewrite bool_decide_eq_true_2 by done.
    cbn [andb].
    destruct ec as [cat v]. cbn [Error.category Error.value].
    destruct (decide (cat = Error.ssl_category)) as [->|Hcat].
    + rewrite bool_decide_eq_true_2 by done.
      destruct (Z.eqb_spec v (Error.ERR_PACK Error.ERR_LIB_SSL 0
                                             Error.SSL_R_SHORT_READ)) as [->|_];
        [by destruct Hsr|].
      rewrite (bool_decide_eq_false_2 (Error.ssl_category = _)) by done.
      reflexivity.
    + rewrite (bool_decide_eq_false_2 (cat = Error.ssl_category)) by done.
      destruct (decide (cat = Error.misc_category)) as [->|Hcat'].
      * rewrite bool_decide_eq_true_2 by done.
        destruct (Z.eqb_spec v Error.eof) as [->|_]; [by destruct Heof|].
        reflexivity.
      * rewrite bool_decide_eq_false_2 by done. reflexivity.
  - intros St. rewrite bool_decide_eq_false_2 by done. reflexivity.
Qed.

Lemma read_error_benign_only_when_logged_out_witness :
  do_read_handler 2 Spec.transport_EOF [] Fixture.logged_out
    = (Ok (), Fixture.logged_out)
  /\ fst (do_read_handler 2 (Error.mk Error.system_category 104) []
            Fixture.logged_out)
     = Throw (Throw_error (Error.mk Error.system_category 104))
  /\ fst (do_read_handler 2 Spec.transport_EOF [] Fixture.fetched)
     = Throw (Throw_error Spec.transport_EOF).
Proof.
  split; [|split].
  - apply (proj1 (read_error_benign_only_when_logged_out
                    2 Spec.transport_EOF [] Fixture.logged_out eq_refl));
      [reflexivity|right; reflexivity].
  - apply (proj1 (proj2 (read_error_benign_only_when_logged_out
                           2 (Error.mk Error.system_category 104) []
                           Fixture.logged_out eq_refl)));
      [reflexivity|discriminate|discriminate].
  - apply (proj2 (proj2 (read_error_benign_only_when_logged_out
                           2 Spec.transport_EOF [] Fixture.fetched eq_refl))).
    discriminate.
Defined.

(** The handler of the fetch statistics timer swallows the cancellation
    of its wait. *)
Lemma fetch_timer_abort_swallowed (cat : Error.Category) (c : Client) :
  resume_fetch_timer_handler (Error.mk cat Error.operation_aborted) c
  = (Ok (), c).
Proof. reflexivity. Qed.


(** C8.  The handler of the signal wait.  A delivery with no signal seen
    before: the signal is logged, the wait is armed again, the transport
    is cancelled and shut down, nothing is pushed to the transport, and
    the handler returns.  A delivery with a signal seen before:
    [THROW_MSG] with the immediate-exit message; this is what the second
    of two deliveries meets.  The cancellation of the wait: the handler
    returns and leaves the client as it was. *)
Theorem signal_quits_then_aborts
    (ec : Error.error_code) (signal_number : Z) (c : Client) :
  let h := do_signal_wait_handler in
  let immediate_exit n :=
    Throw_msg [Txt "Got a signal ("; Num n;
               Txt ") the second time - immediate exit"] in
  (Error.is_set ec = false -> signaled_ c = 0 ->
     fst (h ec signal_number c) = Ok ()
     /\ events_of (h ec signal_number) c
        = Spec.first_signal_events signal_number
     /\ written (events_of (h ec signal_number) c) = []
     /\ signaled_ (snd (h ec signal_number c)) = 1
     /\ forall (ec' : Error.error_code) (n' : Z),
          Error.is_set ec' = false ->
          fst (h ec' n' (snd (h ec signal_number c)))
          = Throw (immediate_exit n'))
  /\ (Error.is_set ec = false -> signaled_ c <> 0 ->
        fst (h ec signal_number c) = Throw (immediate_exit signal_number))
  /\ (Error.is_set ec = true -> Error.value ec = Error.operation_canceled ->
        h ec signal_number c = (Ok (), c)).
Proof.
  cbn zeta. split; [|split].
  - intros Hec Hsig. unfold events_of, do_signal_wait_handler.
    rewrite Hec. monad. rewrite Hsig. change (0 =? 0) with true. monad.
    split; [reflexivity|]. split; [by events|]. split; [by events|].
    split; [reflexivity|].
    intros ec' n' Hec'. rewrite Hec'. by monad.
  - intros Hec Hsig. unfold do_signal_wait_handler. rewrite Hec. monad.
    destruct (Z.eqb_spec (signaled_ c) 0); [done|]. by monad.
  - intros Hec Hval. unfold do_signal_wait_handler. rewrite Hec, Hval.
    reflexivity.
Qed.

Lemma signal_quits_then_aborts_witness :
  (events_of (do_signal_wait_handler Spec.success 2) Fixture.fetched
     = Spec.first_signal_events 2
   /\ fst (do_signal_wait_handler Spec.success 15
             (snd (do_signal_wait_handler Spec.success 2 Fixture.fetched)))
      = Throw (Throw_msg [Txt "Got a signal ("; Num 15;
                          Txt ") the second time - immediate exit"]))
  /\ fst (do_signal_wait_handler Spec.success 15
            (set_signaled_ 1 Fixture.fetched))
     = Throw (Throw_msg [Txt "Got a signal ("; Num 15;
                         Txt ") the second time - immediate exit"])
  /\ do_signal_wait_handler Spec.signal_operation_canceled 0 Fixture.fetched
     = (Ok (), Fixture.fetched).
Proof.
  pose proof (signal_quits_then_aborts Spec.success 2 Fixture.fetched)
    as (Hfirst & _ & _).
  pose proof (signal_quits_then_aborts Spec.success 15
                (set_signaled_ 1 Fixture.fetched)) as (_ & Hsecond & _).
  pose proof (signal_quits_then_aborts Spec.signal_operation_canceled 0
                Fixture.fetched) as (_ & _ & Hcancel).
  split; [|split].
  - destruct (Hfirst eq_refl eq_refl) as (_ & Hev & _ & _ & Hnext).
    split; [exact Hev|]. exact (Hnext Spec.success 15 eq_refl).
  - apply Hsecond; [reflexivity|discriminate].
  - apply Hcancel; reflexivity.
Defined.

(** In [FETCHED], [command] stops the timer and goes on to store or to
    log out. *)
Lemma command_FETCHED (fuel : nat) (c : Client) :
  state_ c = State.FETCHED ->
  command (S fuel) c = (stop_fetch_timer;; do_store_or_logout) c.
Proof. intros St. cbn [command]. monad. by rewrite St. Qed.

(** C2, as the code has it.  With deletion enabled, [command] in
    [FETCHED] returns after pushing exactly one command: the writer's
    [uid_store], whether or not the server advertises UIDPLUS, over the
    collected UIDs, with the flag Deleted, in mode [REPLACE], silent; its
    tag is registered for [STORED]. *)
Theorem store_after_fetch_is_uid_store_replace (fuel : nat) (c : Client) :
  del (opts_ c) = true ->
  state_ c = State.FETCHED ->
  fst (command (S fuel) c) = Ok ()
  /\ written (events_of (command (S fuel)) c)
     = [Some (Writer.mk (Writer.tag_of (tags_ c))
                (Writer.uid_store (Range_Set.copy (uids_ c)) [Flag.DELETED]
                                  Writer.REPLACE true))]
  /\ tag_to_state_ (snd (command (S fuel) c)) !! Writer.tag_of (tags_ c)
     = Some State.STORED.
Proof.
  intros Hdel St. unfold events_of. rewrite (command_FETCHED fuel c St).
  unfold do_store_or_logout. actions. rewrite Hdel. actions.
  split; [reflexivity|]. split; [by events|]. apply lookup_insert_eq.
Qed.

Lemma store_after_fetch_is_uid_store_replace_witness :
  written (events_of (command 2) Fixture.fetched_no_uidplus)
  = [Some (Writer.mk "A5"
             (Writer.uid_store [(3, 3); (5, 5); (7, 7)] [Flag.DELETED]
                               Writer.REPLACE true))].
Proof.
  exact (proj1 (proj2 (store_after_fetch_is_uid_store_replace
                         1 Fixture.fetched_no_uidplus eq_refl eq_refl))).
Defined.

(** C2, as the specification has it, fails at two sessions with deletion
    enabled and state [FETCHED].  With UIDPLUS the command pushed is a
    UID STORE, but in mode [REPLACE] where an add-mode store is claimed;
    without UIDPLUS it is still a UID STORE, where a plain STORE is
    claimed. *)
Lemma store_after_fetch_counterexample :
  let pushed c :=
    head (requests (events_of (command 2) c)) ≫= Spec.as_store in
  (del (opts_ Fixture.fetched) = true
   /\ state_ Fixture.fetched = State.FETCHED
   /\ pushed Fixture.fetched
      = Some (Spec.mk_store true [(3, 3); (5, 5); (7, 7)] [Flag.DELETED]
                            Writer.REPLACE true)
   /\ pushed Fixture.fetched
      <> Some (Spec.add_deleted_silently Fixture.fetched))
  /\ (del (opts_ Fixture.fetched_no_uidplus) = true
      /\ state_ Fixture.fetched_no_uidplus = State.FETCHED
      /\ pushed Fixture.fetched_no_uidplus
         = Some (Spec.mk_store true [(3, 3); (5, 5); (7, 7)] [Flag.DELETED]
                               Writer.REPLACE true)
      /\ Spec.uid_prefix (Spec.add_deleted_silently Fixture.fetched_no_uidplus)
         = false
      /\ pushed Fixture.fetched_no_uidplus
         <> Some (Spec.add_deleted_silently Fixture.fetched_no_uidplus)).
Proof.
  cbn zeta. repeat split; try (vm_compute; reflexivity);
    vm_compute; discriminate.
Qed.

(** *** Delivery to the maildir *)

Lemma append_empty_r (s : string) : s +:+ "" = s.
Proof.
  induction s as [|a s IH]; [reflexivity|].
  change (String a (s +:+ "") = String a s). by rewrite IH.
Qed.

Lemma append_assoc (a b c : string) : (a +:+ b) +:+ c = a +:+ b +:+ c.
Proof.
  induction a as [|x a IH]; [reflexivity|].
  change (String x ((a +:+ b) +:+ c) = String x (a +:+ b +:+ c)).
  by rewrite IH.
Qed.

Lemma maildir_suffix_app (fs gs : list Flag.t) :
  Spec.maildir_suffix (fs ++ gs)
  = Spec.maildir_suffix fs +:+ Spec.maildir_suffix gs.
Proof.
  induction fs as [|f fs IH]; [reflexivity|].
  cbn [app Spec.maildir_suffix]. by rewrite IH, append_assoc.
Qed.

(** A callback other than the begin of a FETCH response and the tagged
    status returns, leaves the state alone, and adds to [flags_] the
    letter of the flag it carries, if it carries one. *)
Lemma callback_within_fetch (fuel : nat) (cb : Callback) (c : Client) :
  Spec.within_fetch cb = true ->
  fst (callback fuel cb c) = Ok ()
  /\ state_ (snd (callback fuel cb c)) = state_ c
  /\ flags_ (snd (callback fuel cb c))
     = flags_ c +:+ Spec.maildir_suffix (Spec.flags_of [cb]).
Proof.
  destruct cb as [| | | | | | | | | | | | | |f|]; try discriminate; intros _;
    unfold callback, imap_status_code_capability_begin, imap_capability_begin,
      imap_capability, imap_data_exists, imap_data_recent,
      imap_status_code_uidvalidity, imap_data_fetch_end, imap_section_empty,
      imap_body_section_inner, imap_body_section_end, imap_flag, imap_uid,
      proxy_write, Maildir.create_tmp_name;
    monad; cbn [Spec.flags_of omap list_omap Spec.maildir_suffix];
    rewrite ?append_empty_r.
  all: try done.
  all: try (destruct (buffer_proxy_ c); by monad).
  all: try (by repeat split_if).
  destruct f; monad; unfold push_back; cbn [Spec.maildir_letter];
    by rewrite ?append_empty_r.
Qed.

(** The callbacks between the begin of a FETCH response and the end of
    its body, taken together. *)
Lemma lexer_read_within_fetch (fuel : nat) (mid : list Callback) (c : Client) :
  Forall (fun cb => Spec.within_fetch cb = true) mid ->
  fst (lexer_read fuel mid c) = Ok ()
  /\ state_ (snd (lexer_read fuel mid c)) = state_ c
  /\ flags_ (snd (lexer_read fuel mid c))
     = flags_ c +:+ Spec.maildir_suffix (Spec.flags_of mid).
Proof.
  intros Hmid. revert c.
  induction Hmid as [|cb mid Hcb _ IH]; intros c.
  - cbn. by rewrite append_empty_r.
  - destruct (callback_within_fetch fuel cb c Hcb) as (Hok & Hst & Hfl).
    cbn [lexer_read]. unfold mbind, M_bind.
    destruct (callback fuel cb c) as [[[]| |] c1]; try discriminate.
    cbn [fst snd] in *. destruct (IH c1) as (Hok' & Hst' & Hfl').
    split; [exact Hok'|]. split; [congruence|].
    rewrite Hfl', Hfl, append_assoc.
    change (cb :: mid) with ([cb] ++ mid).
    unfold Spec.flags_of. by rewrite omap_app, maildir_suffix_app.
Qed.

(** [imap_body_section_end] on any client that is fetching a full
    body. *)
Lemma body_section_end_full_body (c : Client) :
  state_ c = State.FETCHING ->
  full_body_ c = true ->
  let c' := snd (imap_body_section_end c) in
  fst (imap_body_section_end c) = Ok ()
  /\ buffer_proxy_ c' = Buffer.To_buffer
  /\ file_buffer_ c' = Buffer.close (file_buffer_ c)
  /\ maildir_ c'
     = (if String.eqb (flags_ c) ""
        then Maildir.move_to_new (maildir_ c)
        else Maildir.move_to_cur (flags_ c) (maildir_ c))
  /\ full_body_ c' = false
  /\ fetched_messages_ c' = (fetched_messages_ c + 1) mod 2 ^ 64.
Proof.
  intros St Hfull. unfold imap_body_section_end. monad.
  rewrite St, bool_decide_eq_true_2 by done. monad.
  rewrite Hfull. monad.
  by destruct (String.eqb (flags_ c) "").
Qed.

(** C4.  A FETCH response begins in state [FETCHING]; callbacks follow,
    none of them the begin of another response or a tagged status; then,
    with [full_body_] set, the body section ends.  The callback returns;
    the proxy points at the memory buffer again; the file buffer is the
    one that was open, closed; the maildir has moved the temporary file
    to new/ when the flags received so far in this response gave no
    letter, and otherwise to cur/ with their letters (R, S, F, D; nothing
    for Recent, Deleted and the bounds), one per flag and in the order of
    arrival; [full_body_] is cleared; and [fetched_messages_] has gone up
    by one, as a 64-bit counter does. *)
Theorem body_section_end_delivers
    (fuel : nat) (number : Z) (mid : list Callback) (c0 : Client) :
  state_ c0 = State.FETCHING ->
  Forall (fun cb => Spec.within_fetch cb = true) mid ->
  let c := snd (lexer_read fuel (Data_fetch_begin number :: mid) c0) in
  full_body_ c = true ->
  let suffix := Spec.maildir_suffix (Spec.flags_of mid) in
  let c' := snd (imap_body_section_end c) in
  fst (imap_body_section_end c) = Ok ()
  /\ buffer_proxy_ c' = Buffer.To_buffer
  /\ file_buffer_ c' = Buffer.close (file_buffer_ c)
  /\ Buffer.is_open (file_buffer_ c') = false
  /\ maildir_ c'
     = (if String.eqb suffix ""
        then Maildir.move_to_new (maildir_ c)
        else Maildir.move_to_cur suffix (maildir_ c))
  /\ full_body_ c' = false
  /\ fetched_messages_ c' = (fetched_messages_ c + 1) mod 2 ^ 64
  /\ (0 <= fetched_messages_ c < 2 ^ 64 - 1 ->
      fetched_messages_ c' = fetched_messages_ c + 1).
Proof.
  intros St Hmid. cbn zeta.
  cbn [lexer_read callback]. unfold imap_data_fetch_begin. monad.
  rewrite St, bool_decide_eq_true_2 by done. monad.
  match goal with
  | |- context [lexer_read fuel mid ?c1] =>
      destruct (lexer_read_within_fetch fuel mid c1 Hmid) as (_ & St' & Hfl);
      set (c := snd (lexer_read fuel mid c1)) in *
  end.
  cbn [state_ flags_ set_flags_ set_trace_] in St', Hfl.
  change ("" +:+ Spec.maildir_suffix (Spec.flags_of mid))
    with (Spec.maildir_suffix (Spec.flags_of mid)) in Hfl.
  intros Hfull.
  destruct (body_section_end_full_body c) as (H1 & H2 & H3 & H4 & H5 & H6);
    [congruence|done|].
  rewrite <- Hfl.
  repeat (split; [done|]).
  split; [by rewrite H3|]. split; [done|]. split; [done|]. split; [done|].
  intros Hrange. rewrite H6. apply Z.mod_small. lia.
Qed.

Lemma body_section_end_delivers_witness :
  let c := snd (lexer_read 2 (Data_fetch_begin 1 :: Fixture.message_3)
                  Fixture.fetching) in
  let c' := snd (imap_body_section_end c) in
  Maildir.delivered (maildir_ c') = [Maildir.Cur "t0" "SR"]
  /\ file_buffer_ c' = Buffer.mk (Some "t0") false "BODY1"
  /\ buffer_proxy_ c' = Buffer.To_buffer
  /\ full_body_ c' = false
  /\ fetched_messages_ c' = 1.
Proof.
  cbn zeta.
  destruct (body_section_end_delivers 2 1 Fixture.message_3 Fixture.fetching)
    as (_ & Hproxy & Hfile & _ & Hmaildir & Hfull & Hcount & _).
  - reflexivity.
  - repeat constructor.
  - vm_compute. reflexivity.
  - rewrite Hmaildir, Hfile, Hproxy, Hfull, Hcount.
    vm_compute. repeat split; reflexivity.
Defined.

(** *** UIDs in STORE and EXPUNGE *)

Lemma mem_push (u n : Z) (r : Range_Set.t) :
  Range_Set.mem u (Range_Set.push n r) -> u = n \/ Range_Set.mem u r.
Proof.
  unfold Range_Set.mem, Range_Set.push.
  destruct r as [|[a b] r].
  - intros H. apply Exists_cons in H as [H|H]; [cbn in H; lia|].
    by apply Exists_nil in H.
  - destruct (Z.eqb_spec n (b + 1)) as [->|_]; intros H;
      apply Exists_cons in H as [H|H]; cbn [fst snd] in H.
    + destruct (decide (u = b + 1)); [by left|].
      right. apply Exists_cons_hd. cbn. lia.
    + right. by apply Exists_cons_tl.
    + left. lia.
    + by right.
Qed.

Lemma mem_copy (u : Z) (r : Range_Set.t) :
  Range_Set.mem u (Range_Set.copy r) -> Range_Set.mem u r.
Proof.
  unfold Range_Set.mem, Range_Set.copy. intros H.
  apply Exists_rev in H. by rewrite rev_involutive in H.
Qed.

Lemma mem_nil (u : Z) : ~ Range_Set.mem u [].
Proof. intros H. by apply Exists_nil in H. Qed.

Lemma carries_refl (P : Z -> Prop) (c : Client) :
  Spec.holds_uids_from P c -> Spec.carries_uids_from P c c.
Proof.
  intros H. split; [exact H|]. exists []. by rewrite app_nil_r.
Qed.

Lemma carries_trans (P : Z -> Prop) (c c' c'' : Client) :
  Spec.carries_uids_from P c c' -> Spec.carries_uids_from P c' c'' ->
  Spec.carries_uids_from P c c''.
Proof.
  intros (_ & evs & Htr & Hev) (Hc'' & evs' & Htr' & Hev').
  split; [exact Hc''|]. exists (evs ++ evs').
  split; [by rewrite Htr', Htr, app_assoc|].
  unfold requests in *. rewrite omap_app. by apply Forall_app.
Qed.

(** Closes [uids_from P r] for a request read off the goal, given what
    the client held before. *)
Ltac uids_from_held H :=
  let u := fresh "u" in
  let Hu := fresh "Hu" in
  intros u Hu; cbn [Spec.sequence_set Writer.request] in Hu;
  first [ by apply mem_nil in Hu
        | apply (proj1 H); by apply mem_copy
        | by apply (proj1 H) ].

(** Closes [carries_uids_from P c c'] when [c'] is spelled out in terms
    of [c]. *)
Ltac carries_held H :=
  split;
  [ split;
    [ first [ exact (proj1 H) | uids_from_held H ]
    | first [ exact (proj2 H)
            | let cmd := fresh "cmd" in
              let E := fresh "E" in
              intros cmd E; injection E as <-; uids_from_held H ] ]
  | eexists; split;
    [ first [ rewrite <- ?app_assoc; reflexivity | symmetry; apply app_nil_r ]
    | unfold requests; cbn [app omap list_omap Writer.request];
      repeat (apply List.Forall_cons; [uids_from_held H|]);
      apply List.Forall_nil ] ].

(** Whatever [command] does, the UIDs it puts into a STORE or EXPUNGE are
    UIDs the client held. *)
Lemma command_carries (P : Z -> Prop) (fuel : nat) (c : Client) :
  Spec.holds_uids_from P c ->
  Spec.carries_uids_from P c (snd (command fuel c)).
Proof.
  revert c. induction fuel as [|fuel IH]; intros c H; [by apply carries_refl|].
  cbn [command]. monad.
  destruct (state_ c) eqn:St; try (by apply carries_refl);
    actions; rewrite ?St; repeat split_if; try (by carries_held H).
  match goal with
  | |- Spec.carries_uids_from P c (snd (command fuel ?c1)) =>
      apply (carries_trans P c c1); [by carries_held H|apply IH]
  end.
  split; [exact (proj1 H)|exact (proj2 H)].
Qed.

(** The same for one callback of the lexer, when the UID it may carry
    satisfies [P]. *)
Lemma callback_carries (P : Z -> Prop) (fuel : nat) (cb : Callback)
    (c : Client) :
  (forall n : Z, cb = Uid n -> P n) ->
  Spec.holds_uids_from P c ->
  Spec.carries_uids_from P c (snd (callback fuel cb c)).
Proof.
  intros HP H.
  destruct cb as [| | | |cap|status| | | | | | | | |f|n];
    unfold callback, imap_status_code_capability_begin, imap_capability_begin,
      imap_capability, imap_data_exists, imap_data_recent,
      imap_status_code_uidvalidity, imap_data_fetch_begin, imap_data_fetch_end,
      imap_section_empty, imap_body_section_inner, imap_body_section_end,
      imap_flag, imap_uid, imap_tagged_status_end, proxy_write,
      Maildir.create_tmp_name;
    monad.
  all: try (by carries_held H).
  - destruct (buffer_proxy_ c); monad; by carries_held H.
  - split_if; [by carries_held H|].
    destruct (tag_to_state_ c !! tag_buffer_ c) as [next|];
      monad; [|by carries_held H].
    match goal with
    | |- Spec.carries_uids_from P c (snd (command fuel ?c1)) =>
        apply (carries_trans P c c1);
          [by carries_held H|apply command_carries]
    end.
    split; [exact (proj1 H)|exact (proj2 H)].
  - split_if; by carries_held H.
  - repeat split_if; by carries_held H.
  - repeat split_if; by carries_held H.
  - destruct f; monad; by carries_held H.
  - split_if; [|by carries_held H].
    split; [split; [|exact (proj2 H)]|].
    + intros u Hu. cbn [uids_] in Hu.
      apply mem_push in Hu as [->|Hu]; [by apply HP|by apply (proj1 H)].
    + eexists. split; [reflexivity|]. by constructor.
Qed.

(** And for all the callbacks the lexer makes of its input. *)
Lemma lexer_read_carries (P : Z -> Prop) (fuel : nat) (cbs : list Callback)
    (c : Client) :
  (forall n : Z, In (Uid n) cbs -> P n) ->
  Spec.holds_uids_from P c ->
  Spec.carries_uids_from P c (snd (lexer_read fuel cbs c)).
Proof.
  revert c. induction cbs as [|cb cbs IH]; intros c HP H;
    [by apply carries_refl|].
  assert (Hcb : Spec.carries_uids_from P c (snd (callback fuel cb c))).
  { apply callback_carries; [|exact H]. intros n ->. apply HP. by left. }
  cbn [lexer_read]. unfold mbind, M_bind.
  destruct (callback fuel cb c) as [[[]| |] c1]; cbn [snd] in *;
    [|exact Hcb..].
  apply (carries_trans P c c1); [exact Hcb|].
  apply IH; [|exact (proj1 Hcb)]. intros n Hn. apply HP. by right.
Qed.

(** C9.  [do_login], when it emits the LOGIN, leaves [exists_],
    [recent_] and [uidvalidity_] at 0 and [uids_] empty.  Whatever the
    lexer then makes of the server's answers, a UID in the sequence set
    of a STORE or EXPUNGE request pushed to the transport is a UID the
    lexer reported after the login. *)
Theorem login_resets_mailbox (fuel : nat) (cbs : list Callback) (c : Client) :
  Capability.LOGINDISABLED ∉ capabilities_ c ->
  let c' := snd (do_login c) in
  requests (events_of do_login c)
    = [Writer.login (username (opts_ c)) (password (opts_ c))]
  /\ exists_ c' = 0 /\ recent_ c' = 0 /\ uidvalidity_ c' = 0
  /\ uids_ c' = Range_Set.empty
  /\ forall (r : Writer.Request) (u : Z),
       In r (requests (events_of (lexer_read fuel cbs) c')) ->
       Range_Set.mem u (Spec.sequence_set r) ->
       In u (Spec.uids_of cbs).
Proof.
  intros Hcap. cbn zeta.
  assert (Hheld : Spec.holds_uids_from
                    (fun u => In u (Spec.uids_of cbs)) (snd (do_login c))).
  { actions. rewrite bool_decide_eq_false_2 by done. monad. split.
    - intros u Hu. by apply mem_nil in Hu.
    - intros cmd [= <-] u Hu. by apply mem_nil in Hu. }
  split; [|split; [|split; [|split; [|split]]]].
  1-5: unfold events_of; actions; rewrite bool_decide_eq_false_2 by done;
       monad; try reflexivity; by events.
  intros r u Hr Hu.
  destruct (lexer_read_carries (fun u => In u (Spec.uids_of cbs))
              fuel cbs (snd (do_login c))) as (_ & evs & Htr & Hev).
  - intros n Hn. apply list_elem_of_In, list_elem_of_omap.
    exists (Uid n). split; [by apply list_elem_of_In|reflexivity].
  - exact Hheld.
  - unfold events_of in Hr. rewrite Htr, drop_app_length in Hr.
    rewrite List.Forall_forall in Hev. exact (Hev r Hr u Hu).
Qed.

Lemma login_resets_mailbox_witness :
  let c' := snd (do_login (set_uids_ Fixture.uids_357 Fixture.greeted)) in
  uids_ c' = Range_Set.empty
  /\ requests
       (events_of
          (lexer_read 2
             [Tag_buffer "A1"; Tagged_status_end Status.OK;
              Capability_ Capability.UIDPLUS;
              Tag_buffer "A2"; Tagged_status_end Status.OK;
              Data_exists 1;
              Tag_buffer "A3"; Tagged_status_end Status.OK;
              Data_fetch_begin 1; Uid 9; Data_fetch_end;
              Tag_buffer "A4"; Tagged_status_end Status.OK;
              Tag_buffer "A5"; Tagged_status_end Status.OK]) c')
     = [Writer.capability; Writer.select "INBOX";
        Writer.fetch [(1, 4294967295)] fetch_atts;
        Writer.uid_store [(9, 9)] [Flag.DELETED] Writer.REPLACE true;
        Writer.uid_expunge [(9, 9)]].
Proof.
  cbn zeta. split.
  - apply (login_resets_mailbox
             2 [] (set_uids_ Fixture.uids_357 Fixture.greeted)).
    vm_compute. discriminate.
  - vm_compute. reflexivity.
Defined.

(** ** More on the certificate verifier *)

(** An invocation only appends to the trace, and never writes the host
    name or the pin. *)
Lemma call_extends_trace `{SSL.OpenSSL}
    (v : SSL.Verification) (preverified : bool) (ctx : SSL.verify_context) :
  SSL.trace_ (snd (SSL.call preverified ctx v))
  = SSL.trace_ v ++ SSL.events_of preverified ctx v
  /\ SSL.fingerprint_ (snd (SSL.call preverified ctx v)) = SSL.fingerprint_ v.
Proof.
  unfold SSL.events_of, SSL.call. members.
  repeat match goal with
         | |- context [if ?b then _ else _] => destruct b; members
         end;
    rewrite <- ?app_assoc, drop_app_length; by split.
Qed.

(** With [true] cached, an invocation answers [true], keeps it cached and
    leaves the default verifier alone. *)
Lemma call_cached `{SSL.OpenSSL}
    (v : SSL.Verification) (preverified : bool) (ctx : SSL.verify_context) :
  SSL.result_ v = true ->
  fst (SSL.call preverified ctx v) = true
  /\ SSL.result_ (snd (SSL.call preverified ctx v)) = true
  /\ Forall (fun e => SSL.is_default e = false)
            (SSL.events_of preverified ctx v).
Proof.
  intros Hres. unfold SSL.events_of, SSL.call. members. rewrite Hres.
  members. split; [done|]. split; [done|].
  rewrite <- ?app_assoc, drop_app_length. repeat constructor.
Qed.

(** Without a pin and with nothing cached, an invocation is the default
    verifier, and nothing gets cached. *)
Lemma call_unpinned `{SSL.OpenSSL}
    (v : SSL.Verification) (preverified : bool) (ctx : SSL.verify_context) :
  SSL.fingerprint_ v = "" -> SSL.result_ v = false ->
  fst (SSL.call preverified ctx v)
    = SSL.rfc2818_verification (SSL.hostname_ v) preverified ctx
  /\ SSL.result_ (snd (SSL.call preverified ctx v)) = false.
Proof.
  intros Hpin Hres. unfold SSL.call. members. rewrite Hres, Hpin.
  cbn [String.eqb negb andb].
  by destruct (SSL.rfc2818_verification _ _ _).
Qed.

(** X1.  A verifier constructed without fingerprint is the default
    verifier: called on any chain, of any length, it answers for every
    certificate what [rfc2818_verification] answers for the host name it
    was constructed with, and never caches a result. *)
Theorem unpinned_verifier_is_default `{SSL.OpenSSL}
    (hostname : string) (chain : list (bool * SSL.verify_context)) :
  let v := SSL.Verification_ hostname "" in
  fst (Session.verify_chain chain v)
    = map (fun pc => SSL.rfc2818_verification hostname (fst pc) (snd pc)) chain
  /\ SSL.result_ (snd (Session.verify_chain chain v)) = false.
Proof.
  cbn zeta.
  assert (Hgen : forall v : SSL.Verification,
             SSL.fingerprint_ v = "" -> SSL.result_ v = false ->
             fst (Session.verify_chain chain v)
               = map (fun pc => SSL.rfc2818_verification
                                  (SSL.hostname_ v) (fst pc) (snd pc)) chain
             /\ SSL.result_ (snd (Session.verify_chain chain v)) = false).
  { induction chain as [|[pre ctx] chain IH]; intros v Hpin Hres; [done|].
    destruct (call_unpinned v pre ctx Hpin Hres) as (Hr & Hres').
    pose proof (call_keeps_hostname v pre ctx) as Hhost.
    pose proof (proj2 (call_extends_trace v pre ctx)) as Hpin'.
    cbn [Session.verify_chain map fst snd].
    destruct (SSL.call pre ctx v) as [r v1]. cbn [fst snd] in *.
    destruct (IH v1) as (Hrs & Hfinal); [congruence|done|].
    destruct (Session.verify_chain chain v1) as [rs v2]. cbn [fst snd] in *.
    split; [|done]. by rewrite Hr, Hrs, Hhost. }
  apply Hgen; reflexivity.
Qed.

(** Once a match is cached, every later invocation answers [true] and
    the default verifier is not called any more. *)
Lemma chain_cached `{SSL.OpenSSL}
    (chain : list (bool * SSL.verify_context)) (v : SSL.Verification) :
  SSL.result_ v = true ->
  fst (Session.verify_chain chain v) = map (fun _ => true) chain
  /\ exists evs : list SSL.Event,
       SSL.trace_ (snd (Session.verify_chain chain v)) = SSL.trace_ v ++ evs
       /\ Forall (fun e => SSL.is_default e = false) evs.
Proof.
  revert v. induction chain as [|[pre ctx] chain IH]; intros v Hres.
  - split; [done|]. exists []. by rewrite app_nil_r.
  - destruct (call_cached v pre ctx Hres) as (Hr & Hres' & Hev).
    pose proof (proj1 (call_extends_trace v pre ctx)) as Htr.
    cbn [Session.verify_chain map].
    destruct (SSL.call pre ctx v) as [r v1]. cbn [fst snd] in *.
    destruct (IH v1 Hres') as (Hrs & evs & Htr' & Hev').
    destruct (Session.verify_chain chain v1) as [rs v2]. cbn [fst snd] in *.
    split; [by rewrite Hr, Hrs|].
    exists (SSL.events_of pre ctx v ++ evs).
    split; [by rewrite Htr', Htr, app_assoc|]. by apply Forall_app.
Qed.

(** X2.  A verifier pinned to the fingerprint of the first certificate it
    is shown accepts the whole chain, whatever PKI preverification says
    about any of its certificates, and the default verifier is not called
    once: the match at position 1 is cached and served to every later
    position. *)
Theorem pinned_match_accepts_chain `{SSL.OpenSSL}
    (hostname configured : string) (preverified : bool)
    (ctx : SSL.verify_context) (rest : list (bool * SSL.verify_context)) :
  String.eqb (SSL.to_upper_copy configured) "" = false ->
  Spec.iequals configured (SSL.fp_str ctx) = true ->
  let v := SSL.Verification_ hostname configured in
  let chain := (preverified, ctx) :: rest in
  fst (Session.verify_chain chain v) = map (fun _ => true) chain
  /\ Forall (fun e => SSL.is_default e = false)
            (SSL.trace_ (snd (Session.verify_chain chain v))).
Proof.
  intros Hne Hmatch. cbn zeta.
  set (v := SSL.Verification_ hostname configured).
  destruct (call_pinned_leaf v preverified ctx Hne eq_refl eq_refl)
    as (Hr & Hres & _ & _ & Hev).
  pose proof (proj1 (call_extends_trace v preverified ctx)) as Htr.
  unfold Spec.iequals, SSL.fp_str in Hmatch.
  rewrite to_upper_copy_hex in Hmatch.
  change (SSL.fingerprint_ v) with (SSL.to_upper_copy configured) in Hr, Hres.
  unfold SSL.fp_str in Hr, Hres. rewrite Hmatch in Hr, Hres.
  cbn [Session.verify_chain map].
  destruct (SSL.call preverified ctx v) as [r v1]. cbn [fst snd] in *.
  destruct (chain_cached rest v1 Hres) as (Hrs & evs & Htr' & Hev').
  destruct (Session.verify_chain rest v1) as [rs v2]. cbn [fst snd] in *.
  split; [by rewrite Hr, Hrs|].
  rewrite Htr', Htr. cbn [SSL.trace_ v SSL.Verification_ app].
  by apply Forall_app.
Qed.

Lemma pinned_match_accepts_chain_witness :
  fst (Session.verify_chain
         [(false, Fixture.leaf); (false, Fixture.issuer)] Fixture.pinned)
  = [true; true].
Proof.
  exact (proj1 (pinned_match_accepts_chain
                  "imap.example.org" "abcd" false Fixture.leaf
                  [(false, Fixture.issuer)] eq_refl eq_refl)).
Defined.

(** X3.  The verifier rejects a certificate exactly when it logs at level
    FATAL during that invocation: a fingerprint mismatch and a failure of
    the default verifier are both logged, and nothing else is. *)
Theorem rejection_is_logged_fatal `{SSL.OpenSSL}
    (v : SSL.Verification) (preverified : bool) (ctx : SSL.verify_context) :
  existsb Session.is_fatal (SSL.events_of preverified ctx v)
  = negb (fst (SSL.call preverified ctx v)).
Proof.
  unfold SSL.events_of, SSL.call. members.
  destruct (SSL.result_ v) eqn:Hres; members.
  - rewrite <- ?app_assoc, drop_app_length. reflexivity.
  - destruct ((SSL.pos_ v + 1) mod 2 ^ 32 =? 1) eqn:Hpos;
      rewrite ?andb_true_r, ?andb_false_r;
      repeat match goal with
             | |- context [if ?b then _ else _] =>
                 destruct b eqn:?; cbn [negb]; members
             end;
      rewrite <- ?app_assoc, drop_app_length; cbn; congruence.
Qed.

Lemma N_of_hex_digit (a : N) :
  (a < 16)%N ->
  N_of_ascii (SSL.hex_digit a) = (if (a <? 10)%N then 48 + a else 55 + a)%N.
Proof.
  intros Ha.
  assert (Hcases : a = 0%N \/ a = 1%N \/ a = 2%N \/ a = 3%N \/ a = 4%N
                   \/ a = 5%N \/ a = 6%N \/ a = 7%N \/ a = 8%N \/ a = 9%N
                   \/ a = 10%N \/ a = 11%N \/ a = 12%N \/ a = 13%N
                   \/ a = 14%N \/ a = 15%N) by lia.
  repeat destruct Hcases as [->|Hcases]; try reflexivity.
  by subst.
Qed.

Lemma hex_digit_inj (a b : N) :
  (a < 16)%N -> (b < 16)%N -> SSL.hex_digit a = SSL.hex_digit b -> a = b.
Proof.
  intros Ha Hb Heq. apply (f_equal N_of_ascii) in Heq.
  rewrite !N_of_hex_digit in Heq by done.
  destruct (N.ltb_spec a 10), (N.ltb_spec b 10); lia.
Qed.

(** X4.  The fingerprint string determines the digest: two contexts get
    the same fingerprint exactly when the digests of their certificates
    are equal octet for octet, and a fingerprint has two characters per
    octet of the digest. *)
Theorem fingerprint_determines_digest `{SSL.OpenSSL}
    (ctx ctx' : SSL.verify_context) :
  (SSL.fp_str ctx = SSL.fp_str ctx'
   <-> SSL.X509_digest (SSL.X509_STORE_CTX_get_current_cert ctx)
       = SSL.X509_digest (SSL.X509_STORE_CTX_get_current_cert ctx'))
  /\ String.length (SSL.fp_str ctx)
     = (2 * length (SSL.X509_digest
                      (SSL.X509_STORE_CTX_get_current_cert ctx)))%nat.
Proof.
  unfold SSL.fp_str.
  generalize (SSL.X509_digest (SSL.X509_STORE_CTX_get_current_cert ctx)).
  generalize (SSL.X509_digest (SSL.X509_STORE_CTX_get_current_cert ctx')).
  intros bs' bs. split; [split; [|by intros ->]|].
  - revert bs'. induction bs as [|b bs IH]; intros [|b' bs'] Heq;
      try discriminate; [reflexivity|].
    cbn [SSL.hex] in Heq. injection Heq as Hhi Hlo Hrest.
    pose proof (Byte.to_N_bounded b) as Hb.
    pose proof (Byte.to_N_bounded b') as Hb'.
    apply hex_digit_inj in Hhi;
      [|apply N.Div0.div_lt_upper_bound; lia..].
    apply hex_digit_inj in Hlo; [|apply N.mod_lt; lia..].
    assert (Hn : Byte.to_N b = Byte.to_N b').
    { rewrite (N.div_mod (Byte.to_N b) 16), (N.div_mod (Byte.to_N b') 16)
        by lia. by rewrite Hhi, Hlo. }
    f_equal; [|by apply IH].
    apply (f_equal Byte.of_N) in Hn. rewrite !Byte.of_to_N in Hn.
    by injection Hn.
  - induction bs as [|b bs IH]; [reflexivity|].
    cbn [SSL.hex String.length length]. rewrite IH. lia.
Qed.

(** ** More on the copy client *)

(** *** Shutdown *)

(** X5.  The handler of the shutdown.  On success and on the two errors
    of an orderly closure it closes the transport and cancels the signal
    wait, in this order, and logs nothing.  Any other error leaves
    through [THROW_ERROR], and then the transport is not closed and the
    signal wait is not cancelled: only log records were written. *)
Theorem shutdown_closes_unless_fatal (ec : Error.error_code) (c : Client) :
  (Error.is_set ec = false \/ Session.benign_shutdown ec ->
     fst (do_shutdown_handler ec c) = Ok ()
     /\ events_of (do_shutdown_handler ec) c = [Ev_close; Ev_signals_cancel])
  /\ (Error.is_set ec = true -> ~ Session.benign_shutdown ec ->
        fst (do_shutdown_handler ec c) = Throw (Throw_error ec)
        /\ Session.operations (events_of (do_shutdown_handler ec) c) = []).
Proof.
  unfold events_of, do_shutdown_handler, Session.benign_shutdown.
  destruct ec as [cat v]. cbn [Error.category Error.value].
  destruct (Error.is_set (Error.mk cat v)) eqn:Hset; monad.
  - destruct (decide (cat = Error.ssl_category)) as [->|Hcat].
    + rewrite !(bool_decide_eq_true_2 (Error.ssl_category = _)) by done.
      cbn [andb].
      destruct (Z.eqb_spec v (Error.ERR_PACK Error.ERR_LIB_SSL 0
                                             Error.SSL_R_SHORT_READ))
        as [->|Hv]; monad.
      { split; [intros _; split; [done|by events]|].
        intros _ Hnot. destruct Hnot. by left. }
      destruct (Z.eqb_spec (Error.ERR_GET_REASON v)
                  Error.SSL_R_DECRYPTION_FAILED_OR_BAD_RECORD_MAC)
        as [Hr|Hr]; monad.
      { split; [intros _; split; [done|by events]|].
        intros _ Hnot. destruct Hnot. by right. }
      split.
      * intros [|[[=]|[_ ?]]]; done.
      * intros _ _. split; [done|]. by events.
    + rewrite !(bool_decide_eq_false_2 (cat = _)) by done. monad. split.
      * intros [|[[=]|[? _]]]; done.
      * intros _ _. split; [done|]. by events.
  - split; [intros _; split; [done|by events]|done].
Qed.

Lemma shutdown_closes_unless_fatal_witness :
  events_of (do_shutdown_handler Scenario.bad_record_mac) Fixture.logged_out
    = [Ev_close; Ev_signals_cancel]
  /\ fst (do_shutdown_handler Scenario.connection_reset Fixture.logged_out)
     = Throw (Throw_error Scenario.connection_reset).
Proof.
  split.
  - apply (proj1 (shutdown_closes_unless_fatal
                    Scenario.bad_record_mac Fixture.logged_out)).
    right. right. split; reflexivity.
  - apply (proj2 (shutdown_closes_unless_fatal
                    Scenario.connection_reset Fixture.logged_out));
      [reflexivity|].
    intros [[=]|[[=] _]].
Defined.

(** *** The steps of the state machine *)

Lemma State_incr_ESTABLISHED :
  State.incr State.ESTABLISHED = State.GOT_INITIAL_CAPABILITIES.
Proof. reflexivity. Qed.

(** X6.  The login timer fires in [ESTABLISHED].  With no capability
    known, the client asks for them: it pushes CAPABILITY, stays in
    [ESTABLISHED], and registers the tag for [GOT_INITIAL_CAPABILITIES].
    With capabilities known from the greeting, it asks nothing: it moves
    to [GOT_INITIAL_CAPABILITIES] and pushes the LOGIN at once, with the
    tag registered for [LOGGED_IN] and the capability set emptied; if
    LOGINDISABLED is among them it throws in that state and pushes
    nothing. *)
Theorem login_timer_asks_or_logs_in (fuel : nat) (ec : Error.error_code)
    (c : Client) :
  Error.is_set ec = false ->
  state_ c = State.ESTABLISHED ->
  let h := do_pre_login_handler (S fuel) ec in
  (capabilities_ c = ∅ ->
     fst (h c) = Ok ()
     /\ requests (events_of h c) = [Writer.capability]
     /\ state_ (snd (h c)) = State.ESTABLISHED
     /\ tag_to_state_ (snd (h c)) !! Writer.tag_of (tags_ c)
        = Some State.GOT_INITIAL_CAPABILITIES)
  /\ (capabilities_ c <> ∅ -> Capability.LOGINDISABLED ∉ capabilities_ c ->
        fst (h c) = Ok ()
        /\ requests (events_of h c)
           = [Writer.login (username (opts_ c)) (password (opts_ c))]
        /\ state_ (snd (h c)) = State.GOT_INITIAL_CAPABILITIES
        /\ capabilities_ (snd (h c)) = ∅
        /\ tag_to_state_ (snd (h c)) !! Writer.tag_of (tags_ c)
           = Some State.LOGGED_IN)
  /\ (Capability.LOGINDISABLED ∈ capabilities_ c ->
        fst (h c)
          = Throw (Throw_msg
                     [Txt "Cannot login because server has LOGINDISABLED"])
        /\ written (events_of h c) = []
        /\ state_ (snd (h c)) = State.GOT_INITIAL_CAPABILITIES).
Proof.
  intros Hec St. cbn zeta. unfold events_of, do_pre_login_handler.
  rewrite Hec. unfold do_capabilities. monad. split; [|split].
  - intros Hcaps. rewrite bool_decide_eq_true_2 by done. monad.
    rewrite St. split; [done|]. split; [by events|]. split; [done|].
    by rewrite lookup_insert_eq.
  - intros Hcaps Hlogin. rewrite bool_decide_eq_false_2 by done. monad.
    rewrite !St, State_incr_ESTABLISHED. cbn [command]. actions.
    rewrite bool_decide_eq_false_2 by done. monad.
    split; [done|]. split; [by events|]. split; [done|]. split; [done|].
    by rewrite lookup_insert_eq.
  - intros Hlogin.
    rewrite (bool_decide_eq_false_2 (capabilities_ c = ∅)) by set_solver.
    monad. rewrite !St, State_incr_ESTABLISHED. cbn [command]. actions.
    rewrite bool_decide_eq_true_2 by done. monad.
    split; [done|]. split; [by events|]. done.
Qed.

Lemma login_timer_asks_or_logs_in_witness :
  requests (events_of (do_pre_login_handler 1 Spec.success)
              Scenario.established) = [Writer.capability]
  /\ requests (events_of (do_pre_login_handler 1 Spec.success)
                 Scenario.established_greeted)
     = [Writer.login "juser" "secret"].
Proof.
  split.
  - apply (proj1 (login_timer_asks_or_logs_in
                    0 Spec.success Scenario.established eq_refl eq_refl)).
    reflexivity.
  - apply (proj1 (proj2 (login_timer_asks_or_logs_in
                           0 Spec.success Scenario.established_greeted
                           eq_refl eq_refl))).
    + vm_compute. discriminate.
    + vm_compute. discriminate.
Defined.

(** X7.  After SELECT.  An empty mailbox is not fetched: the client
    pushes LOGOUT, moves to [LOGGING_OUT], registers the tag for
    [LOGGED_OUT], and arms no timer.  Otherwise it arms the statistics
    timer for one second and then pushes a FETCH of 1:4294967295 for UID,
    FLAGS, BODY.PEEK of the header fields date, from, subject, and
    BODY.PEEK of the whole message; it is in [FETCHING], the tag is
    registered for [FETCHED], and the byte count of the transport is
    remembered. *)
Theorem select_leads_to_fetch_or_logout (fuel : nat) (c : Client) :
  state_ c = State.SELECTED_MAILBOX ->
  let m := command (S fuel) in
  let tag := Writer.tag_of (tags_ c) in
  (exists_ c = 0 ->
     fst (m c) = Ok ()
     /\ Session.operations (events_of m c)
        = [Ev_push_write (Some (Writer.mk tag Writer.logout))]
     /\ state_ (snd (m c)) = State.LOGGING_OUT
     /\ tag_to_state_ (snd (m c)) !! tag = Some State.LOGGED_OUT)
  /\ (exists_ c <> 0 ->
        fst (m c) = Ok ()
        /\ Session.operations (events_of m c)
           = [ Ev_fetch_timer_expires_from_now 1;
               Ev_fetch_timer_async_wait;
               Ev_push_write
                 (Some (Writer.mk tag
                          (Writer.fetch [(1, 4294967295)] fetch_atts))) ]
        /\ state_ (snd (m c)) = State.FETCHING
        /\ tag_to_state_ (snd (m c)) !! tag = Some State.FETCHED
        /\ fetch_bytes_start_ (snd (m c)) = bytes_read_ c).
Proof.
  intros St. cbn zeta. unfold events_of. cbn [command]. monad.
  rewrite St. unfold do_fetch_or_logout. monad. split.
  - intros ->. change (0 =? 0) with true. actions.
    split; [done|]. split; [by events|]. split; [done|].
    by rewrite lookup_insert_eq.
  - intros Hex. destruct (Z.eqb_spec (exists_ c) 0); [done|]. actions.
    split; [done|]. split; [by events|]. split; [done|].
    split; [by rewrite lookup_insert_eq|done].
Qed.

Lemma select_leads_to_fetch_or_logout_witness :
  state_ (snd (command 1 Scenario.selected_empty)) = State.LOGGING_OUT
  /\ state_ (snd (command 1 Scenario.selected)) = State.FETCHING.
Proof.
  split.
  - apply (proj1 (select_leads_to_fetch_or_logout
                    0 Scenario.selected_empty eq_refl)).
    reflexivity.
  - apply (proj2 (select_leads_to_fetch_or_logout
                    0 Scenario.selected eq_refl)).
    vm_compute. discriminate.
Defined.

(** X8.  After FETCH with deletion switched off: the statistics timer is
    cancelled, and the one command pushed is LOGOUT.  Nothing is stored
    or expunged, and the collected UIDs are left as they are. *)
Theorem fetched_without_deletion_logs_out (fuel : nat) (c : Client) :
  state_ c = State.FETCHED ->
  del (opts_ c) = false ->
  let m := command (S fuel) in
  fst (m c) = Ok ()
  /\ Session.operations (events_of m c)
     = [ Ev_fetch_timer_cancel;
         Ev_push_write
           (Some (Writer.mk (Writer.tag_of (tags_ c)) Writer.logout)) ]
  /\ state_ (snd (m c)) = State.LOGGING_OUT
  /\ tag_to_state_ (snd (m c)) !! Writer.tag_of (tags_ c)
     = Some State.LOGGED_OUT
  /\ uids_ (snd (m c)) = uids_ c.
Proof.
  intros St Hdel. cbn zeta. unfold events_of.
  rewrite (command_FETCHED fuel c St). actions. rewrite Hdel. actions.
  split; [done|]. split; [by events|]. split; [done|].
  split; [by rewrite lookup_insert_eq|done].
Qed.

Lemma fetched_without_deletion_logs_out_witness :
  Session.operations (events_of (command 1) Scenario.fetched_keep)
  = [ Ev_fetch_timer_cancel;
      Ev_push_write (Some (Writer.mk "A5" Writer.logout)) ].
Proof.
  exact (proj1 (proj2 (fetched_without_deletion_logs_out
                         0 Scenario.fetched_keep eq_refl eq_refl))).
Defined.

(** X9.  After STORE.  With UIDPLUS among the capabilities the client
    pushes UID EXPUNGE over the collected UIDs, without it a plain
    EXPUNGE; either way the tag is registered for [EXPUNGED] and the
    state stays [STORED] until the answer. *)
Theorem stored_leads_to_expunge (fuel : nat) (c : Client) :
  state_ c = State.STORED ->
  let m := command (S fuel) in
  fst (m c) = Ok ()
  /\ requests (events_of m c)
     = [ if bool_decide (Capability.UIDPLUS ∈ capabilities_ c)
         then Writer.uid_expunge (Range_Set.copy (uids_ c))
         else Writer.expunge ]
  /\ state_ (snd (m c)) = State.STORED
  /\ tag_to_state_ (snd (m c)) !! Writer.tag_of (tags_ c)
     = Some State.EXPUNGED.
Proof.
  intros St. cbn zeta. unfold events_of. cbn [command]. monad.
  rewrite St. actions.
  destruct (bool_decide (Capability.UIDPLUS ∈ capabilities_ c)); actions;
    (split; [done|]); (split; [by events|]); (split; [done|]);
    by rewrite lookup_insert_eq.
Qed.

Lemma stored_leads_to_expunge_witness :
  requests (events_of (command 1) Scenario.stored)
  = [Writer.uid_expunge [(3, 3); (5, 5); (7, 7)]].
Proof.
  exact (proj1 (proj2 (stored_leads_to_expunge 0 Scenario.stored eq_refl))).
Defined.

(** *** What the callbacks leave alone *)

Lemma operations_app (l1 l2 : list Event) :
  Session.operations (l1 ++ l2)
  = Session.operations l1 ++ Session.operations l2.
Proof. apply List.filter_app. Qed.

Lemma same_session_refl (c : Client) : Session.same_session c c.
Proof.
  repeat (split; [reflexivity|]). exists []. by rewrite app_nil_r.
Qed.

Lemma same_session_trans (c c' c'' : Client) :
  Session.same_session c c' -> Session.same_session c' c'' ->
  Session.same_session c c''.
Proof.
  intros (H1 & H2 & H3 & H4 & H5 & evs & Htr & Hops)
         (H1' & H2' & H3' & H4' & H5' & evs' & Htr' & Hops').
  repeat (split; [congruence|]). exists (evs ++ evs').
  split; [by rewrite Htr', Htr, app_assoc|].
  by rewrite operations_app, Hops, Hops'.
Qed.

(** Closes [same_session c c'] when [c'] is spelled out in terms of
    [c]. *)
Ltac same_session_held :=
  repeat (split; [reflexivity|]);
  eexists; split;
  [ first [ rewrite <- ?app_assoc; reflexivity | symmetry; apply app_nil_r ]
  | reflexivity ].

(** A callback other than the tagged status returns and does not move
    the state machine; outside [FETCHING] it ingests nothing. *)
Lemma callback_untagged (fuel : nat) (cb : Callback) (c : Client) :
  Session.untagged cb = true ->
  fst (callback fuel cb c) = Ok ()
  /\ Session.same_session c (snd (callback fuel cb c))
  /\ (state_ c <> State.FETCHING ->
      Session.same_mailbox c (snd (callback fuel cb c))).
Proof.
  destruct cb as [| | | | | | | | | | | | | |f|]; try discriminate; intros _;
    unfold callback, imap_status_code_capability_begin, imap_capability_begin,
      imap_capability, imap_data_exists, imap_data_recent,
      imap_status_code_uidvalidity, imap_data_fetch_begin, imap_data_fetch_end,
      imap_section_empty, imap_body_section_inner, imap_body_section_end,
      imap_flag, imap_uid, proxy_write, Maildir.create_tmp_name;
    monad.
  all: try (split; [done|split; [same_session_held|done]]).
  - destruct (buffer_proxy_ c); monad;
      (split; [done|split; [same_session_held|done]]).
  - split_if; (split; [done|split; [same_session_held|done]]).
  - destruct (bool_decide (state_ c = State.FETCHING)) eqn:St; monad;
      [|split; [done|split; [same_session_held|done]]].
    apply bool_decide_eq_true in St.
    split_if; (split; [done|split; [same_session_held|done]]).
  - destruct (bool_decide (state_ c = State.FETCHING)) eqn:St; monad;
      [|split; [done|split; [same_session_held|done]]].
    apply bool_decide_eq_true in St.
    repeat split_if; (split; [done|split; [same_session_held|done]]).
  - destruct f; monad; (split; [done|split; [same_session_held|done]]).
  - destruct (bool_decide (state_ c = State.FETCHING)) eqn:St; monad;
      [|split; [done|split; [same_session_held|done]]].
    apply bool_decide_eq_true in St.
    split; [done|split; [same_session_held|done]].
Qed.

(** The same for all the callbacks the lexer makes of its input. *)
Lemma lexer_read_untagged (fuel : nat) (cbs : list Callback)
    (c : Client) :
  Forall (fun cb => Session.untagged cb = true) cbs ->
  fst (lexer_read fuel cbs c) = Ok ()
  /\ Session.same_session c (snd (lexer_read fuel cbs c))
  /\ (state_ c <> State.FETCHING ->
      Session.same_mailbox c (snd (lexer_read fuel cbs c))).
Proof.
  intros Hcbs. revert c. induction Hcbs as [|cb cbs Hcb _ IH]; intros c.
  - split; [done|]. split; [apply same_session_refl|done].
  - destruct (callback_untagged fuel cb c Hcb) as (Hok & Hses & Hbox).
    cbn [lexer_read]. unfold mbind, M_bind.
    destruct (callback fuel cb c) as [[[]| |] c1]; try discriminate.
    cbn [fst snd] in *. destruct (IH c1) as (Hok' & Hses' & Hbox').
    split; [exact Hok'|].
    split; [by apply (same_session_trans c c1)|].
    intros St. destruct (Hbox St) as (U1 & U2 & U3 & U4).
    destruct Hbox' as (V1 & V2 & V3 & V4).
    { destruct Hses as (-> & _). exact St. }
    unfold Session.same_mailbox. by rewrite V1, V2, V3, V4.
Qed.


(** X10.  Data that is not a tagged status never moves the session.
    Whatever the lexer makes of the input, as long as it is no tagged
    status: every callback returns; state, tag registry, tag generator
    and command buffer stay as they are; nothing is pushed to the
    transport and no timer or signal is touched.  And when the session is
    not in [FETCHING], nothing is ingested either: no UID is recorded, no
    temporary file is created or delivered, no message is counted, and
    the proxy keeps its target. *)
Theorem untagged_data_moves_nothing (fuel : nat) (cbs : list Callback)
    (c : Client) :
  Forall (fun cb => Session.untagged cb = true) cbs ->
  fst (lexer_read fuel cbs c) = Ok ()
  /\ Session.same_session c (snd (lexer_read fuel cbs c))
  /\ (state_ c <> State.FETCHING ->
      Session.same_mailbox c (snd (lexer_read fuel cbs c))).
Proof. apply lexer_read_untagged. Qed.

Lemma untagged_data_moves_nothing_witness :
  Session.same_mailbox Fixture.fetched
    (snd (lexer_read 2
            [Data_fetch_begin 9; Uid 9; Flag_ Flag.SEEN; Section_empty;
             Body_section_inner; Proxy_buffer "late"; Body_section_end]
            Fixture.fetched)).
Proof.
  apply (untagged_data_moves_nothing 2
           [Data_fetch_begin 9; Uid 9; Flag_ Flag.SEEN; Section_empty;
            Body_section_inner; Proxy_buffer "late"; Body_section_end]
           Fixture.fetched).
  - repeat constructor.
  - discriminate.
Defined.

(** *** Progress *)

Lemma State_plus_LOGGED_IN :
  State.plus State.LOGGED_IN 1 = State.GOT_CAPABILITIES.
Proof. reflexivity. Qed.

(** Closes [one_pending c' /\ state_ c <= state_ c'] when [c'] is spelled
    out and its registry is empty or holds the one tag just inserted. *)
Ltac pending_held Hempty St :=
  split;
  [ first [ left; exact Hempty
          | right; eexists _, _; split;
            [ apply insert_empty
            | monad; rewrite ?St; cbn [State.to_unsigned]; lia ] ]
  | monad; rewrite ?St; cbn [State.to_unsigned]; lia ].

(** Run on an empty registry, [command] registers at most one tag, for a
    state later than the one it leaves the client in, and does not move
    the client backwards. *)
Lemma command_pending (fuel : nat) (c : Client) :
  tag_to_state_ c = ∅ ->
  Session.one_pending (snd (command fuel c))
  /\ State.to_unsigned (state_ c)
     <= State.to_unsigned (state_ (snd (command fuel c))).
Proof.
  revert c. induction fuel as [|fuel IH]; intros c Hempty;
    [split; [by left|done]|].
  cbn [command]. monad.
  destruct (state_ c) eqn:St; try (split; [by left|by rewrite St]);
    actions; rewrite ?St, ?Hempty, ?State_plus_LOGGED_IN;
    repeat split_if; rewrite ?Hempty; try (by pending_held Hempty St).
  rewrite !St, State_incr_LOGGED_IN.
  match goal with
  | |- context [command fuel ?c1] =>
      destruct (IH c1 Hempty) as (Hpend & Hle)
  end.
  split; [exact Hpend|]. cbn [state_ set_state_ State.to_unsigned] in Hle.
  cbn [State.to_unsigned]. lia.
  rewrite !St, State_plus_LOGGED_IN. by pending_held Hempty St.
Qed.

(** X11.  The session only moves forward, one tag at a time.  Start from
    a client whose registry is empty or holds a single tag, registered
    for a state later than the current one.  Then, whatever the lexer
    reports and however the server answers, after every callback the
    registry again holds at most one tag, again for a state later than
    the current one, and the state has never gone back. *)
Theorem session_moves_forward (fuel : nat) (cbs : list Callback) (c : Client) :
  Session.one_pending c ->
  Session.one_pending (snd (lexer_read fuel cbs c))
  /\ State.to_unsigned (state_ c)
     <= State.to_unsigned (state_ (snd (lexer_read fuel cbs c))).
Proof.
  revert c. induction cbs as [|cb cbs IH]; intros c Hpend; [done|].
  assert (Hcb : Session.one_pending (snd (callback fuel cb c))
                /\ State.to_unsigned (state_ c)
                   <= State.to_unsigned (state_ (snd (callback fuel cb c)))).
  { destruct (Session.untagged cb) eqn:Hun.
    - destruct (callback_untagged fuel cb c Hun)
        as (_ & (Hst & Hreg & _) & _).
      unfold Session.one_pending. rewrite Hst, Hreg. by split.
    - destruct cb; try discriminate.
      unfold callback, imap_tagged_status_end. monad.
      split_if; [by split|].
      destruct (tag_to_state_ c !! tag_buffer_ c) as [next|] eqn:Hlook;
        monad; [|by split].
      destruct Hpend as [Hempty|(tag & next' & Hone & Hlater)].
      { by rewrite Hempty, lookup_empty in Hlook. }
      rewrite Hone in Hlook.
      apply lookup_singleton_Some in Hlook as [<- <-].
      rewrite Hone, delete_singleton_eq.
      match goal with
      | |- context [command fuel ?c1] =>
          destruct (command_pending fuel c1 eq_refl) as (Hp & Hle)
      end.
      split; [exact Hp|]. cbn [state_ set_state_ set_tag_to_state_] in Hle.
      lia. }
  cbn [lexer_read]. unfold mbind, M_bind.
  destruct (callback fuel cb c) as [[[]| |] c1]; cbn [snd] in *;
    [|exact Hcb..].
  destruct (IH c1 (proj1 Hcb)) as (Hp & Hle). split; [exact Hp|]. lia.
Qed.

Lemma session_moves_forward_witness :
  let c' := snd (lexer_read 2
                   [Tag_buffer "A1"; Tagged_status_end Status.OK;
                    Data_exists 0; Tag_buffer "A1";
                    Tagged_status_end Status.OK]
                   Fixture.selecting) in
  Session.one_pending c'
  /\ State.to_unsigned (state_ Fixture.selecting)
     <= State.to_unsigned (state_ c').
Proof.
  apply (session_moves_forward 2
           [Tag_buffer "A1"; Tagged_status_end Status.OK;
            Data_exists 0; Tag_buffer "A1"; Tagged_status_end Status.OK]
           Fixture.selecting).
  right. exists "A1", State.SELECTED_MAILBOX. split; [reflexivity|].
  vm_compute. reflexivity.
Defined.

(** *** The capability set *)

(** Capabilities reported one after the other add up. *)
Lemma capabilities_add_up (fuel : nat) (cs : list Capability.t) (c : Client) :
  capabilities_ (snd (lexer_read fuel (map Capability_ cs) c))
  = list_to_set cs ∪ capabilities_ c.
Proof.
  revert c. induction cs as [|x cs IH]; intros c.
  - cbn. by rewrite (left_id_L ∅ (∪)).
  - cbn [map lexer_read callback]. unfold imap_capability. monad.
    rewrite IH. monad. rewrite list_to_set_cons.
    by rewrite (assoc_L (∪)), (comm_L (∪) _ {[x]}).
Qed.

(** X12.  A CAPABILITY status code replaces the capability set: after it
    and the capabilities it lists, the set holds exactly those, whatever
    it held before.  An untagged CAPABILITY response does not: the
    capabilities it lists are added to what the set held. *)
Theorem capability_code_replaces_response_adds
    (fuel : nat) (cs : list Capability.t) (c : Client) :
  capabilities_
    (snd (lexer_read fuel
            (Status_code_capability_begin :: map Capability_ cs) c))
  = list_to_set cs
  /\ capabilities_
       (snd (lexer_read fuel (Capability_begin :: map Capability_ cs) c))
     = list_to_set cs ∪ capabilities_ c.
Proof.
  split.
  - cbn [lexer_read callback]. unfold imap_status_code_capability_begin.
    monad. rewrite capabilities_add_up. monad.
    by rewrite (right_id_L ∅ (∪)).
  - cbn [lexer_read callback]. unfold imap_capability_begin. monad.
    apply capabilities_add_up.
Qed.

(** *** What [command] can do *)

(** X13.  One dispatch of [command], given the fuel it needs.  It
    returns, or throws the LOGINDISABLED message, and that only in
    [GOT_INITIAL_CAPABILITIES] with LOGINDISABLED in the capability set.
    It pushes nothing, or exactly one command; that command is the one
    held in the command buffer, and its tag is in the registry when
    [command] returns. *)
Theorem command_pushes_one_registered_command (fuel : nat) (c : Client) :
  let m := command (S (S fuel)) in
  (fst (m c) = Ok ()
   \/ (fst (m c)
         = Throw (Throw_msg
                    [Txt "Cannot login because server has LOGINDISABLED"])
       /\ state_ c = State.GOT_INITIAL_CAPABILITIES
       /\ Capability.LOGINDISABLED ∈ capabilities_ c))
  /\ (written (events_of m c) = []
      \/ exists cmd : Writer.Command,
           written (events_of m c) = [Some cmd]
           /\ cmd_ (snd (m c)) = Some cmd
           /\ is_Some (tag_to_state_ (snd (m c)) !! Writer.tag cmd)).
Proof.
  cbn zeta. unfold events_of. rewrite (proj1 (command_fuel fuel c)).
  cbn [command]. monad.
  destruct (state_ c) eqn:St;
    try (split; [by left|left; by rewrite drop_all]);
    actions; rewrite ?St; repeat split_if;
    rewrite ?St, ?State_incr_LOGGED_IN; actions.
  all: split;
    [ first [ by left
            | right; split; [done|split; [done|]];
              by eapply bool_decide_eq_true_1 ]
    | first [ left; by rewrite drop_all
            | left; by events
            | right; eexists; split; [by events|]; split; [done|];
              monad; by rewrite lookup_insert_eq ] ].
Qed.

(** *** Reading on, and stopping *)

(** X14.  A chunk of input without tagged status, read without error:
    the handler returns, and asks the transport for exactly one more
    read, unless the session is in [LOGGED_OUT], where it asks for none.
    It touches nothing else of transport, timers and signals. *)
Theorem read_goes_on_unless_logged_out
    (fuel : nat) (ec : Error.error_code) (cbs : list Callback) (c : Client) :
  Error.is_set ec = false ->
  Forall (fun cb => Session.untagged cb = true) cbs ->
  fst (do_read_handler fuel ec cbs c) = Ok ()
  /\ Session.operations (events_of (do_read_handler fuel ec cbs) c)
     = (if bool_decide (state_ c = State.LOGGED_OUT) then []
        else [Ev_async_read_some]).
Proof.
  intros Hec Hcbs. unfold events_of, do_read_handler. rewrite Hec.
  destruct (lexer_read_untagged fuel cbs c Hcbs)
    as (Hok & (Hst & _ & _ & _ & _ & evs & Htr & Hops) & _).
  unfold mbind, M_bind.
  destruct (lexer_read fuel cbs c) as [[[]| |] c1]; try discriminate.
  cbn [fst snd] in *. monad. rewrite Hst.
  destruct (bool_decide (state_ c = State.LOGGED_OUT)); monad.
  - split; [done|]. by rewrite Htr, drop_app_length.
  - split; [done|]. rewrite Htr, <- app_assoc, drop_app_length.
    by rewrite operations_app, Hops.
Qed.

Lemma read_goes_on_unless_logged_out_witness :
  Session.operations
    (events_of (do_read_handler 2 Spec.success Fixture.message_3)
               Fixture.fetching)
  = [Ev_async_read_some].
Proof.
  apply (read_goes_on_unless_logged_out
           2 Spec.success Fixture.message_3 Fixture.fetching);
    [reflexivity|repeat constructor].
Defined.

(** X15.  The acknowledgement of LOGOUT ends the reading.  When the
    chunk read is the tagged OK for a tag registered for [LOGGED_OUT],
    the client consumes the tag, enters [LOGGED_OUT], cancels the
    transport and starts the shutdown, and asks for no further read; the
    end of file that follows on the pending read is then swallowed. *)
Theorem logout_acknowledged_stops_reading
    (fuel : nat) (ec : Error.error_code) (tag : string) (c : Client) :
  Error.is_set ec = false ->
  tag_to_state_ c !! tag = Some State.LOGGED_OUT ->
  let h := do_read_handler (S fuel) ec
             [Tag_buffer tag; Tagged_status_end Status.OK] in
  fst (h c) = Ok ()
  /\ state_ (snd (h c)) = State.LOGGED_OUT
  /\ tag_to_state_ (snd (h c)) !! tag = None
  /\ Session.operations (events_of h c) = [Ev_cancel; Ev_async_shutdown]
  /\ do_read_handler fuel Spec.transport_EOF [] (snd (h c))
     = (Ok (), snd (h c)).
Proof.
  intros Hec Hlook. cbn zeta. unfold events_of, do_read_handler.
  rewrite Hec. cbn [lexer_read callback]. unfold imap_tagged_status_end.
  monad. rewrite bool_decide_eq_true_2 by done. monad.
  rewrite Hlook. monad. cbn [command]. monad.
  rewrite (bool_decide_eq_true_2 (State.LOGGED_OUT = _)) by done. monad.
  split; [done|]. split; [done|]. split; [apply lookup_delete_eq|].
  split; [by events|]. reflexivity.
Qed.

Lemma logout_acknowledged_stops_reading_witness :
  state_ (snd (do_read_handler 1 Spec.success
                 [Tag_buffer "A6"; Tagged_status_end Status.OK]
                 Scenario.logging_out))
  = State.LOGGED_OUT.
Proof.
  apply (logout_acknowledged_stops_reading
           0 Spec.success "A6" Scenario.logging_out); [reflexivity|].
  vm_compute. reflexivity.
Defined.

(** *** Connecting *)

(** X16.  From the constructor to the established session.  When
    resolving, connecting and the handshake complete without error, the
    client has started, in this order: the signal wait, the resolution,
    the connection, the handshake, the first read, and the login timer
    set to the greeting wait of the options.  It is in [ESTABLISHED]
    (and was in [DISCONNECTED] until the handshake completed), and has
    pushed no command.  When one of the three completes with an error,
    its handler throws that error and starts nothing. *)
Theorem connection_is_established_step_by_step
    (opts : Options) (ec1 ec2 ec3 ec : Error.error_code) (c : Client) :
  Error.is_set ec1 = false ->
  Error.is_set ec2 = false ->
  Error.is_set ec3 = false ->
  Error.is_set ec = true ->
  let c0 := snd (Client_ opts) in
  let c1 := snd (do_resolve_handler ec1 c0) in
  let c2 := snd (do_connect_handler ec2 c1) in
  let c3 := snd (do_handshake_handler ec3 c2) in
  (state_ c2 = State.DISCONNECTED
   /\ state_ c3 = State.ESTABLISHED
   /\ Session.operations (trace_ c3)
      = [ Ev_signals_async_wait; Ev_async_resolve; Ev_async_connect;
          Ev_async_handshake; Ev_async_read_some;
          Ev_login_timer_expires_from_now (greeting_wait opts);
          Ev_login_timer_async_wait ]
   /\ written (trace_ c3) = [])
  /\ do_resolve_handler ec c = (Throw (Throw_error ec), c)
  /\ do_connect_handler ec c = (Throw (Throw_error ec), c)
  /\ do_handshake_handler ec c = (Throw (Throw_error ec), c).
Proof.
  intros H1 H2 H3 H. cbn zeta.
  unfold do_resolve_handler, do_connect_handler, do_handshake_handler,
    Client_, do_resolve, do_connect, do_handshake, do_pre_login.
  rewrite H1, H2, H3, H. unfold members. monad.
  split; [|done].
  destruct (use_ssl opts); monad; by repeat split.
Qed.

Lemma connection_is_established_step_by_step_witness :
  state_ (snd (do_handshake_handler Spec.success
                 (snd (do_connect_handler Spec.success
                         (snd (do_resolve_handler Spec.success
                                 (snd (Client_ Fixture.opts))))))))
  = State.ESTABLISHED.
Proof.
  apply (connection_is_established_step_by_step
           Fixture.opts Spec.success Spec.success Spec.success
           Scenario.connection_reset Fixture.logged_out);
    reflexivity.
Defined.

(** *** The operators on the state *)

Lemma State_to_of_unsigned (i : Z) :
  State.to_unsigned (State.of_unsigned i) = i.
Proof.
  destruct i as [|p|p]; try reflexivity.
  do 4 (try destruct p as [p|p|]); reflexivity.
Qed.

(** X17.  [operator++] and [operator+] on the state.  Adding 1 is the
    increment.  The increment of a state numbered below the largest
    [unsigned] is the state numbered one higher, so that from each
    enumerator it leads to the enumerator declared next; at the largest
    [unsigned] it wraps around to [FIRST_].  Casting a number to a state
    and back gives the number. *)
Theorem State_increment_is_successor (s : State.t) (i : Z) :
  State.plus s 1 = State.incr s
  /\ State.to_unsigned (State.of_unsigned i) = i
  /\ (0 <= State.to_unsigned s < 2 ^ 32 - 1 ->
      State.to_unsigned (State.incr s) = State.to_unsigned s + 1)
  /\ (State.to_unsigned s = 2 ^ 32 - 1 -> State.incr s = State.FIRST_).
Proof.
  split; [reflexivity|]. split; [apply State_to_of_unsigned|]. split.
  - intros Hs. unfold State.incr. rewrite State_to_of_unsigned.
    apply Z.mod_small. lia.
  - intros Hs. unfold State.incr. by rewrite Hs.
Qed.

Lemma State_increment_is_successor_witness :
  State.to_unsigned (State.incr State.STORED)
  = State.to_unsigned State.STORED + 1
  /\ State.incr (State.Unnamed (2 ^ 32 - 1)) = State.FIRST_.
Proof.
  split.
  - apply (State_increment_is_successor State.STORED 0).
    cbn [State.to_unsigned]. lia.
  - apply (State_increment_is_successor (State.Unnamed (2 ^ 32 - 1)) 0).
    reflexivity.
Defined.

(** *** Deleting what was fetched *)

(** X18.  What is expunged is what was stored.  With deletion switched
    on, the STORE pushed in [FETCHED] covers the collected UIDs.  Whatever
    untagged data arrives before its acknowledgement, UIDs included, the
    collection is not touched, and when the acknowledgement comes and the
    server has UIDPLUS, the UID EXPUNGE pushed carries the same sequence
    set as the STORE. *)
Theorem expunge_set_is_store_set
    (fuel fuel' fuel'' : nat) (mid : list Callback) (c : Client) :
  state_ c = State.FETCHED ->
  del (opts_ c) = true ->
  Forall (fun cb => Session.untagged cb = true) mid ->
  let c1 := snd (command (S fuel) c) in
  let c2 := snd (lexer_read fuel' mid c1) in
  tag_buffer_ c2 = Writer.tag_of (tags_ c) ->
  Capability.UIDPLUS ∈ capabilities_ c2 ->
  requests (events_of (command (S fuel)) c)
    = [Writer.uid_store (Range_Set.copy (uids_ c)) [Flag.DELETED]
                        Writer.REPLACE true]
  /\ requests (events_of (imap_tagged_status_end (S fuel'') Status.OK) c2)
     = [Writer.uid_expunge (Range_Set.copy (uids_ c))].
Proof.
  intros St Hdel Hmid. cbn zeta.
  assert (Hc1 : state_ (snd (command (S fuel) c)) = State.FETCHED
                /\ uids_ (snd (command (S fuel) c)) = uids_ c
                /\ tag_to_state_ (snd (command (S fuel) c))
                     !! Writer.tag_of (tags_ c) = Some State.STORED
                /\ requests (events_of (command (S fuel)) c)
                   = [Writer.uid_store (Range_Set.copy (uids_ c))
                        [Flag.DELETED] Writer.REPLACE true]).
  { unfold events_of. rewrite (command_FETCHED fuel c St). actions.
    rewrite Hdel. actions. split; [done|]. split; [done|].
    split; [apply lookup_insert_eq|by events]. }
  destruct Hc1 as (St1 & Hu1 & Hreg1 & Hstore).
  set (c1 := snd (command (S fuel) c)) in *.
  destruct (lexer_read_untagged fuel' mid c1 Hmid)
    as (_ & (St2 & Hreg2 & _) & Hbox).
  destruct Hbox as (Hu2 & _); [by rewrite St1|].
  set (c2 := snd (lexer_read fuel' mid c1)) in *.
  intros Htag Hcaps. split; [exact Hstore|].
  unfold events_of, imap_tagged_status_end. monad.
  rewrite bool_decide_eq_true_2 by done. monad.
  rewrite Htag, Hreg2, Hreg1. monad. cbn [command]. actions.
  rewrite bool_decide_eq_true_2 by done. actions.
  rewrite Hu2, Hu1. by events.
Qed.

Lemma expunge_set_is_store_set_witness :
  requests
    (events_of (imap_tagged_status_end 1 Status.OK)
       (snd (lexer_read 1 [Uid 99; Tag_buffer "A5"]
               (snd (command 1 Fixture.fetched)))))
  = [Writer.uid_expunge [(3, 3); (5, 5); (7, 7)]].
Proof.
  apply (expunge_set_is_store_set 0 1 0 [Uid 99; Tag_buffer "A5"]
           Fixture.fetched eq_refl eq_refl).
  - repeat constructor.
  - reflexivity.
  - vm_compute. reflexivity.
Defined.

(** *** Invariants of the ingestion *)

(** [command] does not touch the message in flight or the maildir. *)
Lemma command_same_ingest (fuel : nat) (c : Client) :
  Session.same_ingest c (snd (command fuel c)).
Proof.
  revert c. induction fuel as [|fuel IH]; intros c; [by repeat split|].
  cbn [command]. monad.
  destruct (state_ c) eqn:St; try (by repeat split);
    actions; rewrite ?St; repeat split_if; try (by repeat split).
  match goal with
  | |- context [command fuel ?c1] => exact (IH c1)
  end.
Qed.

(** An invariant that every callback keeps, together with a relation
    every callback establishes, holds over all the lexer makes of its
    input. *)
Lemma lexer_read_invariant
    (Inv : Client -> Prop) (Rel : Client -> Client -> Prop) :
  (forall c, Rel c c) ->
  (forall c c' c'', Rel c c' -> Rel c' c'' -> Rel c c'') ->
  (forall fuel cb c, Inv c ->
     Inv (snd (callback fuel cb c)) /\ Rel c (snd (callback fuel cb c))) ->
  forall fuel cbs c, Inv c ->
    Inv (snd (lexer_read fuel cbs c)) /\ Rel c (snd (lexer_read fuel cbs c)).
Proof.
  intros Hrefl Htrans Hstep fuel cbs.
  induction cbs as [|cb cbs IH]; intros c Hinv; [by split|].
  destruct (Hstep fuel cb c Hinv) as (Hinv1 & Hrel1).
  cbn [lexer_read]. unfold mbind, M_bind.
  destruct (callback fuel cb c) as [[[]| |] c1]; cbn [snd] in *;
    [|by split..].
  destruct (IH c1 Hinv1) as (Hinv2 & Hrel2). split; [done|].
  by apply (Htrans c c1).
Qed.

(** What the tagged status callback leaves of the message in flight and
    of the maildir. *)
Lemma tagged_status_same_ingest (fuel : nat) (status : Status.t) (c : Client) :
  Session.same_ingest c (snd (imap_tagged_status_end fuel status c)).
Proof.
  unfold imap_tagged_status_end. monad.
  split_if; [by repeat split|].
  destruct (tag_to_state_ c !! tag_buffer_ c); monad; [|by repeat split].
  match goal with
  | |- context [command fuel ?c1] => exact (command_same_ingest fuel c1)
  end.
Qed.

Lemma only_RSFD_app (s t : string) :
  Session.only_RSFD (s +:+ t) = Session.only_RSFD s && Session.only_RSFD t.
Proof.
  induction s as [|ch s IH]; [reflexivity|].
  change (String ch s +:+ t) with (String ch (s +:+ t)).
  cbn [Session.only_RSFD]. by rewrite IH, andb_assoc.
Qed.

Lemma delivered_and_counted_refl (c : Client) :
  Session.delivered_and_counted c c.
Proof.
  exists []. rewrite app_nil_r. cbn [length Z.of_nat].
  by rewrite Z.add_0_r.
Qed.

Lemma delivered_and_counted_trans (c c' c'' : Client) :
  Session.delivered_and_counted c c' ->
  Session.delivered_and_counted c' c'' ->
  Session.delivered_and_counted c c''.
Proof.
  intros (ds & Hd & Hf & Hn) (ds' & Hd' & Hf' & Hn').
  exists (ds ++ ds'). split; [by rewrite Hd', Hd, app_assoc|].
  split; [by apply Forall_app|].
  rewrite Hn', <- Z.add_mod_idemp_l, Hn, Z.add_mod_idemp_l by lia.
  rewrite length_app, Nat2Z.inj_add. f_equal. lia.
Qed.

(** Closes [delivered_and_counted c c'] when [c'] is spelled out and has
    the deliveries and the count of [c]. *)
Ltac nothing_delivered :=
  exists []; monad; cbn [Maildir.delivered length Z.of_nat];
  by rewrite app_nil_r, Z.add_0_r.

(** X19.  Every message counted is a message delivered, and delivered
    with proper flags.  Start with only flag letters accumulated (none,
    at the start of a session).  Then, over everything the lexer reports,
    tagged statuses included: the maildir only gains deliveries; each is
    to new/, or to cur/ with a non-empty suffix made of the letters R, S,
    F, D only; and [fetched_messages_] has gone up by exactly the number
    of these deliveries. *)
Theorem counted_messages_are_delivered
    (fuel : nat) (cbs : list Callback) (c : Client) :
  Session.only_RSFD (flags_ c) = true ->
  Session.only_RSFD (flags_ (snd (lexer_read fuel cbs c))) = true
  /\ Session.delivered_and_counted c (snd (lexer_read fuel cbs c)).
Proof.
  apply (lexer_read_invariant
           (fun c => Session.only_RSFD (flags_ c) = true)
           Session.delivered_and_counted
           delivered_and_counted_refl delivered_and_counted_trans).
  clear. intros fuel cb c Hinv.
  destruct cb as [| | | | |status| | | | | | | | |f|];
    try (cbn [callback];
         destruct (tagged_status_same_ingest fuel status c)
           as (-> & Hm & Hn & _);
         split; [done|]; exists []; rewrite Hm, Hn, app_nil_r;
         cbn [length Z.of_nat]; by rewrite Z.add_0_r);
    unfold callback, imap_status_code_capability_begin, imap_capability_begin,
      imap_capability, imap_data_exists, imap_data_recent,
      imap_status_code_uidvalidity, imap_data_fetch_begin, imap_data_fetch_end,
      imap_section_empty, imap_body_section_inner, imap_body_section_end,
      imap_flag, imap_uid, proxy_write, Maildir.create_tmp_name;
    monad.
  all: try (split; [done|nothing_delivered]).
  - destruct (buffer_proxy_ c); monad; (split; [done|nothing_delivered]).
  - split_if; (split; [done|nothing_delivered]).
  - repeat split_if; (split; [done|nothing_delivered]).
  - repeat split_if; (split; [done|]); try nothing_delivered.
    + eexists [_]. monad. cbn [Maildir.delivered Maildir.move_to_new].
      split; [reflexivity|]. split; [by repeat constructor|].
      cbn [length Z.of_nat]. by rewrite Z.mod_mod.
    + eexists [_]. monad. cbn [Maildir.delivered Maildir.move_to_cur].
      split; [reflexivity|]. split.
      * repeat constructor; [|done]. intros E.
        match goal with H : String.eqb _ _ = false |- _ =>
          by rewrite E in H end.
      * cbn [length Z.of_nat]. by rewrite Z.mod_mod.
  - destruct f; monad; unfold push_back; rewrite ?only_RSFD_app, ?Hinv;
      (split; [done|nothing_delivered]).
  - split_if; (split; [done|nothing_delivered]).
Qed.

Lemma counted_messages_are_delivered_witness :
  Session.delivered_and_counted Fixture.fetching
    (snd (lexer_read 2
            (Data_fetch_begin 1 :: Fixture.message_3 ++ [Body_section_end])
            Fixture.fetching)).
Proof.
  apply (counted_messages_are_delivered 2
           (Data_fetch_begin 1 :: Fixture.message_3 ++ [Body_section_end])
           Fixture.fetching).
  reflexivity.
Defined.

(** X20.  The parser never writes into a closed file.  If the proxy
    points at the file buffer only while its file is open, as at the
    start of a session, then this is still so after everything the lexer
    reports, tagged statuses included. *)
Theorem proxy_stays_on_open_file (fuel : nat) (cbs : list Callback)
    (c : Client) :
  Session.proxy_on_open_file c ->
  Session.proxy_on_open_file (snd (lexer_read fuel cbs c)).
Proof.
  intros Hinv.
  apply (lexer_read_invariant Session.proxy_on_open_file (fun _ _ => True));
    [done|done| |exact Hinv].
  clear. intros fuel cb c Hinv. split; [|done].
  unfold Session.proxy_on_open_file in *.
  destruct cb as [| | | | |status| | | | | | | | |f|];
    try (cbn [callback];
         destruct (tagged_status_same_ingest fuel status c)
           as (_ & _ & _ & -> & ->); exact Hinv);
    unfold callback, imap_status_code_capability_begin, imap_capability_begin,
      imap_capability, imap_data_exists, imap_data_recent,
      imap_status_code_uidvalidity, imap_data_fetch_begin, imap_data_fetch_end,
      imap_section_empty, imap_body_section_inner, imap_body_section_end,
      imap_flag, imap_uid, proxy_write, Maildir.create_tmp_name;
    monad; try exact Hinv.
  - destruct (buffer_proxy_ c) eqn:Hp; monad; [by rewrite Hp|].
    intros _. cbn [Buffer.is_open]. by apply Hinv.
  - by split_if.
  - by repeat split_if.
  - by repeat split_if.
  - by destruct f.
  - by split_if.
Qed.

Lemma proxy_stays_on_open_file_witness :
  Session.proxy_on_open_file
    (snd (lexer_read 2 (Data_fetch_begin 1 :: Fixture.message_3)
            Fixture.fetching)).
Proof.
  apply (proxy_stays_on_open_file
           2 (Data_fetch_begin 1 :: Fixture.message_3) Fixture.fetching).
  discriminate.
Defined.

(** *** After the login *)

(** X21.  After LOGIN.  With no capability known, the client asks for
    them: it pushes CAPABILITY, stays in [LOGGED_IN], and registers the
    tag for [GOT_CAPABILITIES].  With capabilities known, from the status
    code of the LOGIN answer, it asks nothing: it moves to
    [GOT_CAPABILITIES] and pushes the SELECT of the configured mailbox at
    once, with the tag registered for [SELECTED_MAILBOX], and keeps the
    capabilities. *)
Theorem logged_in_asks_or_selects (fuel : nat) (c : Client) :
  state_ c = State.LOGGED_IN ->
  let m := command (S (S fuel)) in
  let tag := Writer.tag_of (tags_ c) in
  (capabilities_ c = ∅ ->
     fst (m c) = Ok ()
     /\ requests (events_of m c) = [Writer.capability]
     /\ state_ (snd (m c)) = State.LOGGED_IN
     /\ tag_to_state_ (snd (m c)) !! tag = Some State.GOT_CAPABILITIES)
  /\ (capabilities_ c <> ∅ ->
        fst (m c) = Ok ()
        /\ requests (events_of m c) = [Writer.select (mailbox (opts_ c))]
        /\ state_ (snd (m c)) = State.GOT_CAPABILITIES
        /\ tag_to_state_ (snd (m c)) !! tag = Some State.SELECTED_MAILBOX
        /\ capabilities_ (snd (m c)) = capabilities_ c).
Proof.
  intros St. cbn zeta. unfold events_of. cbn [command]. monad.
  rewrite St. unfold do_capabilities. monad. split.
  - intros Hcaps. rewrite bool_decide_eq_true_2 by done. monad.
    rewrite St. split; [done|]. split; [by events|]. split; [done|].
    by rewrite lookup_insert_eq.
  - intros Hcaps. rewrite bool_decide_eq_false_2 by done. monad.
    rewrite !St, State_incr_LOGGED_IN. actions.
    split; [done|]. split; [by events|]. split; [done|].
    split; [by rewrite lookup_insert_eq|done].
Qed.

Lemma logged_in_asks_or_selects_witness :
  requests (events_of (command 2) Scenario.logged_in) = [Writer.capability]
  /\ requests (events_of (command 2) Scenario.logged_in_capable)
     = [Writer.select "INBOX"].
Proof.
  split.
  - apply (proj1 (logged_in_asks_or_selects 0 Scenario.logged_in eq_refl)).
    reflexivity.
  - apply (proj2 (logged_in_asks_or_selects
                    0 Scenario.logged_in_capable eq_refl)).
    vm_compute. discriminate.
Defined.
